(** * grawler: the robots-policy engine and the crawl manager

    A shallow embedding of [pkg/robots] (the [RulesIndex], [CrawlRules] and
    the robots.txt reader [fetchCrawlRules]) and of the [manager] and
    [crawl] functions of the command, followed by the properties their
    specification states about them. *)

From Stdlib Require Import ZArith Strings.String Strings.Ascii List Bool Lia.
From stdpp Require Import base option list gmap strings.

Local Open Scope string_scope.
Local Open Scope list_scope.
Local Open Scope Z_scope.

(** ** Library functions the code calls

    [strings.ToLower] and [strings.TrimSpace] act on Unicode text; the
    program only hands them input and compares the answer with literals, so
    they are taken as an interface.  [ascii_strings] further down is the
    instance used to run the code on ASCII documents. *)

Class StringsPkg := {
  ToLower : string → string;
  TrimSpace : string → string;
}.

(** ** Strings as Go has them: sequences of bytes *)

Definition newline : ascii := Ascii.ascii_of_nat 10.

(** [strings.Split(s, "\n")], as the first piece and the remaining ones. *)
Fixpoint splitNewline (s : string) : string * list string :=
  match s with
  | EmptyString => (EmptyString, [])
  | String c rest =>
      let '(piece, pieces) := splitNewline rest in
      if Ascii.eqb c newline then (EmptyString, piece :: pieces)
      else (String c piece, pieces)
  end.

Definition Split (s : string) : list string :=
  let '(piece, pieces) := splitNewline s in piece :: pieces.

Fixpoint dropBytes (n : nat) (s : string) : string :=
  match n, s with
  | O, _ => s
  | S n', String _ rest => dropBytes n' rest
  | S _, EmptyString => EmptyString
  end.

(** [strings.SplitN(s, sep, 2)]: [None] when [sep] does not occur (the slice
    has one component), otherwise the text before the first occurrence and
    the text after it. *)
Fixpoint SplitN2 (sep s : string) : option (string * string) :=
  if String.prefix sep s then Some (EmptyString, dropBytes (String.length sep) s)
  else match s with
       | EmptyString => None
       | String c rest =>
           match SplitN2 sep rest with
           | Some (before, after) => Some (String c before, after)
           | None => None
           end
       end.

(** [len(line) == 0 || line[0] == '#'] *)
Definition isBlankOrComment (line : string) : bool :=
  match line with
  | EmptyString => true
  | String c _ => Ascii.eqb c "#"%char
  end.

(** ** Integers

    [int] and [time.Duration] are 64-bit; [wrap64] is the wrap-around of
    int64 arithmetic. *)

Definition minInt64 : Z := - 2 ^ 63.
Definition maxInt64 : Z := 2 ^ 63 - 1.

Definition wrap64 (z : Z) : Z := (z + 2 ^ 63) mod 2 ^ 64 - 2 ^ 63.

(** [time.Second], in nanoseconds. *)
Definition Second : Z := 1000000000.

Definition digitValue (c : ascii) : option Z :=
  let n := Z.of_N (N_of_ascii c) in
  if (48 <=? n) && (n <=? 57) then Some (n - 48) else None.

Fixpoint digitsValue (s : string) (acc : Z) : option Z :=
  match s with
  | EmptyString => Some acc
  | String c rest =>
      match digitValue c with
      | Some d => digitsValue rest (acc * 10 + d)
      | None => None
      end
  end.

(** [strconv.Atoi]: an optional sign and one or more decimal digits, with a
    value an [int] holds; [None] stands for the error result. *)
Definition Atoi (s : string) : option Z :=
  match s with
  | EmptyString => None
  | String c rest =>
      let negative := Ascii.eqb c "-"%char in
      let digits := if negative || Ascii.eqb c "+"%char then rest else s in
      match digits with
      | EmptyString => None
      | _ =>
          match digitsValue digits 0 with
          | Some n =>
              let v := if negative then - n else n in
              if (minInt64 <=? v) && (v <=? maxInt64) then Some v else None
          | None => None
          end
      end
  end.

(** [float64(count)] for an [int]: the nearest number with a 53-bit
    significand, ties to even.  Every float64 this program computes is an
    integer, so the float is represented by its value in [Z]. *)
Definition float64 (count : Z) : Z :=
  let a := Z.abs count in
  if a <? 2 ^ 53 then count
  else
    let e := Z.log2 a - 52 in
    let q := Z.shiftr a e in
    let r := Z.land a (Z.ones e) in
    let half := 2 ^ (e - 1) in
    let q' := if (half <? r) || ((r =? half) && Z.odd q) then q + 1 else q in
    Z.sgn count * Z.shiftl q' e.

(** [math.Min] on two such floats. *)
Definition math_Min (x y : Z) : Z := Z.min x y.

(** [int64(f)] truncates; on an integer inside the int64 range that is the
    integer itself. *)
Definition int64 (f : Z) : Z := f.

(** [time.Duration(int64(math.Min(30.0, float64(count)))) * time.Second] *)
Definition delayOfCount (count : Z) : Z :=
  wrap64 (int64 (math_Min 30 (float64 count)) * Second).

(** ** CrawlRules *)

(** [type Set = map[string]bool]; [None] is the nil map. *)
Definition Set_ : Type := option (gmap string bool).

(** [make(Set)] *)
Definition make_Set : Set_ := Some ∅.

(** [_, ok := s[key]]: a nil map has no keys. *)
Definition hasKey (s : Set_) (key : string) : bool :=
  match s with
  | Some m => match m !! key with Some _ => true | None => false end
  | None => false
  end.

(** [s[key] = true].  Go panics when [s] is nil: that is the [None] result. *)
Definition store (s : Set_) (key : string) : option Set_ :=
  match s with
  | Some m => Some (Some (<[key := true]> m))
  | None => None
  end.

Record CrawlRules := mkCrawlRules {
  DisallowedPaths : Set_;
  AllowedPaths : Set_;
  Delay : Z;
}.

(** [CrawlRules{}] *)
Definition zeroCrawlRules : CrawlRules :=
  {| DisallowedPaths := None; AllowedPaths := None; Delay := 0 |}.

Definition newCrawlRules : CrawlRules :=
  {| DisallowedPaths := make_Set; AllowedPaths := make_Set; Delay := 1 * Second |}.

Definition Test (rules : CrawlRules) (path : string) : bool :=
  if hasKey (AllowedPaths rules) path then true
  else negb (hasKey (DisallowedPaths rules) path).

(** ** The robots.txt reader *)

Section Parser.
Context `{StringsPkg}.

(** One turn of the loop over the lines of the body, on the pair of
    [crawlRules] and [respectRules].  [None] is a run-time panic. *)
Definition parseLine (st : CrawlRules * bool) (line : string)
  : option (CrawlRules * bool) :=
  let '(crawlRules, respectRules) := st in
  if isBlankOrComment line then Some st
  else
    match SplitN2 ": " line with
    | None => Some st
    | Some (component0, value) =>
        let directive := ToLower component0 in
        if (directive =? "user-agent")%string
           && ((value =? "*") || (ToLower value =? "grawler"))%string
        then Some (crawlRules, true)
        else
          let respectRules :=
            if (directive =? "user-agent")%string then false else respectRules in
          if negb respectRules then Some (crawlRules, respectRules)
          else if (directive =? "allow")%string then
            allowed ← store (AllowedPaths crawlRules) (TrimSpace value);
            Some ({| DisallowedPaths := DisallowedPaths crawlRules;
                     AllowedPaths := allowed;
                     Delay := Delay crawlRules |}, respectRules)
          else if (directive =? "disallow")%string then
            disallowed ← store (DisallowedPaths crawlRules) (TrimSpace value);
            Some ({| DisallowedPaths := disallowed;
                     AllowedPaths := AllowedPaths crawlRules;
                     Delay := Delay crawlRules |}, respectRules)
          else if (directive =? "crawl-delay")%string then
            match Atoi value with
            | None => Some (crawlRules, respectRules)
            | Some count =>
                Some ({| DisallowedPaths := DisallowedPaths crawlRules;
                         AllowedPaths := AllowedPaths crawlRules;
                         Delay := delayOfCount count |}, respectRules)
            end
          else Some (crawlRules, respectRules)
    end.

Fixpoint parseLines (st : CrawlRules * bool) (lines : list string)
  : option (CrawlRules * bool) :=
  match lines with
  | [] => Some st
  | line :: rest => st' ← parseLine st line; parseLines st' rest
  end.

(** Lines 133-176 of [fetchCrawlRules]: the rules read from a body. *)
Definition parseBody (body : string) : option CrawlRules :=
  fst <$> parseLines (newCrawlRules, false) (Split body).

(** *** Notions the statements about the reader use *)

(** The directive and the value the loop reads off a line, when it reads
    any: the line is neither blank nor a comment and has the separator. *)
Definition directiveOf (line : string) : option (string * string) :=
  if isBlankOrComment line then None
  else match SplitN2 ": " line with
       | Some (component0, value) => Some (ToLower component0, value)
       | None => None
       end.

(** The line is a [user-agent] line naming every crawler or this one. *)
Definition namesThisAgent (line : string) : bool :=
  match directiveOf line with
  | Some (directive, value) =>
      (directive =? "user-agent")%string
      && ((value =? "*") || (ToLower value =? "grawler"))%string
  | None => false
  end.

(** The integer a [crawl-delay] line carries. *)
Definition lineCount (line : string) : option Z :=
  match directiveOf line with
  | Some (directive, value) =>
      if (directive =? "crawl-delay")%string then Atoi value else None
  | None => None
  end.

(** The integers the loop hands to the delay, in order, when it reads
    [lines] starting with the flag at [respectRules]: those of the
    crawl-delay lines it reaches with the flag up.  A user-agent line sets
    the flag for the lines after it; a crawl-delay line read with the flag
    down is passed over. *)
Fixpoint appliedCounts (respectRules : bool) (lines : list string) : list Z :=
  match lines with
  | [] => []
  | line :: rest =>
      match directiveOf line with
      | None => appliedCounts respectRules rest
      | Some (directive, value) =>
          if (directive =? "user-agent")%string
          then appliedCounts ((value =? "*") || (ToLower value =? "grawler"))%string
                             rest
          else if respectRules && (directive =? "crawl-delay")%string
          then match Atoi value with
               | Some count => count :: appliedCounts respectRules rest
               | None => appliedCounts respectRules rest
               end
          else appliedCounts respectRules rest
      end
  end.

(** The last integer the loop hands to the delay when it reads [body], if
    there is one. *)
Definition lastCount (body : string) : option Z :=
  last (appliedCounts false (Split body)).

(** No line of [lines] names this crawler in a [user-agent] directive. *)
Definition neverNamed (lines : list string) : bool :=
  forallb (λ line, negb (namesThisAgent line)) lines.
End Parser.

(** Both sets of the rules are maps that [make] allocated. *)
Definition allocated (crawlRules : CrawlRules) : Prop :=
  is_Some (DisallowedPaths crawlRules) ∧ is_Some (AllowedPaths crawlRules).

(** [key] is a key of the set [s]. *)
Definition member (key : string) (s : Set_) : Prop :=
  ∃ m, s = Some m ∧ is_Some (m !! key).

Definition withDelay (crawlRules : CrawlRules) (delay : Z) : CrawlRules :=
  {| DisallowedPaths := DisallowedPaths crawlRules;
     AllowedPaths := AllowedPaths crawlRules;
     Delay := delay |}.

(** ASCII letters to lower case; other bytes stay. *)
Definition asciiLower (c : ascii) : ascii :=
  let n := N_of_ascii c in
  if ((65 <=? n) && (n <=? 90))%N then ascii_of_N (n + 32) else c.

Fixpoint asciiToLower (s : string) : string :=
  match s with
  | EmptyString => EmptyString
  | String c rest => String (asciiLower c) (asciiToLower rest)
  end.

(** The ASCII white space: tab, line feed, vertical tab, form feed, carriage
    return and space. *)
Definition isSpace (c : ascii) : bool :=
  let n := N_of_ascii c in
  (((9 <=? n) && (n <=? 13)) || (n =? 32))%N.

Fixpoint trimLeft (s : string) : string :=
  match s with
  | EmptyString => EmptyString
  | String c rest => if isSpace c then trimLeft rest else s
  end.

Fixpoint trimRight (s : string) : string :=
  match s with
  | EmptyString => EmptyString
  | String c rest =>
      match trimRight rest with
      | EmptyString => if isSpace c then EmptyString else String c EmptyString
      | kept => String c kept
      end
  end.

#[export] Instance ascii_strings : StringsPkg :=
  {| ToLower := asciiToLower; TrimSpace := fun s => trimRight (trimLeft s) |}.

Definition lf : string := String newline EmptyString.

(** ** The HTTP client

    The client is the program's environment.  A [Client] answers a request
    from the requests made before it and the URL asked for, so the same URL
    may be answered differently at different times; the [Network] state is
    the list of URLs requested so far, oldest first. *)

Definition error : Type := string.

(** What reading [response.Body] to its end gives. *)
Inductive Body :=
| ReadError (err : error)
| ReadBody (body : string).

Inductive Reply :=
| TransportError (err : error)
| Response (StatusCode : Z) (body : Body).

Definition Network : Type := list string.
Definition Client : Type := Network → string → Reply.

(** [client.Get(url)] *)
Definition client_Get (client : Client) (url : string) (net : Network)
  : Reply * Network :=
  (client net url, net ++ [url]).

Definition robotsURL (domain : string) : string :=
  "http://" +:+ domain +:+ "/robots.txt".

Section Robots.
Context `{StringsPkg}.

(** The result is the pair Go returns and the network afterwards; [None]
    is a run-time panic. *)
Definition fetchCrawlRules (client : Client) (domain : string) (net : Network)
  : option ((CrawlRules * option error) * Network) :=
  let url := robotsURL domain in
  let '(response, net) := client_Get client url net in
  match response with
  | TransportError err => Some ((newCrawlRules, Some err), net)
  | Response StatusCode body =>
      if (399 <? StatusCode) || (StatusCode <? 200)
      then Some ((newCrawlRules, None), net)
      else
        match body with
        | ReadError err => Some ((newCrawlRules, Some err), net)
        | ReadBody body =>
            crawlRules ← parseBody body;
            Some ((crawlRules, None), net)
        end
  end.

Record RulesIndex := mkRulesIndex {
  client : Client;
  rules : gmap string CrawlRules;
}.

(** [NewRulesIndex] for a client that is not nil. *)
Definition NewRulesIndex (client : Client) : RulesIndex :=
  {| client := client; rules := ∅ |}.

(** [index.rules[hostname]] read as a value: the zero value when absent. *)
Definition rulesAt (index : RulesIndex) (hostname : string) : CrawlRules :=
  default zeroCrawlRules (rules index !! hostname).

Definition Get (index : RulesIndex) (hostname : string) (net : Network)
  : option ((CrawlRules * option error) * RulesIndex * Network) :=
  match rules index !! hostname with
  | None =>
      '(crawlRules, err, net) ← fetchCrawlRules (client index) hostname net;
      match err with
      | Some err => Some ((zeroCrawlRules, Some err), index, net)
      | None =>
          let index := {| client := client index;
                          rules := <[hostname := crawlRules]> (rules index) |} in
          Some ((rulesAt index hostname, None), index, net)
      end
  | Some _ => Some ((rulesAt index hostname, None), index, net)
  end.

Definition DomainCount (index : RulesIndex) : nat := size (rules index).
End Robots.

(** ** URLs and the link extractor

    [net/url] and [collectlinks] are libraries; the program uses the fields
    of [url.URL] and these four operations. *)

Record url_URL := mkURL {
  Scheme : string;
  Opaque : string;
  User : option string;
  Host : string;
  Path : string;
  RawPath : string;
  ForceQuery : bool;
  RawQuery : string;
  Fragment : string;
}.

(** [url.URL{}] *)
Definition zeroURL : url_URL :=
  {| Scheme := ""; Opaque := ""; User := None; Host := ""; Path := "";
     RawPath := ""; ForceQuery := false; RawQuery := ""; Fragment := "" |}.

Class UrlPkg := {
  url_Parse : string → option url_URL;
  URL_String : url_URL → string;
  URL_Hostname : url_URL → string;
  collectlinks_All : Body → list string;
}.

Record website := mkWebsite {
  referrer : url_URL;
  URL : url_URL;
}.

(** [website{}] *)
Definition zeroWebsite : website := {| referrer := zeroURL; URL := zeroURL |}.

Definition withHost (u : url_URL) (host : string) : url_URL :=
  {| Scheme := Scheme u; Opaque := Opaque u; User := User u; Host := host;
     Path := Path u; RawPath := RawPath u; ForceQuery := ForceQuery u;
     RawQuery := RawQuery u; Fragment := Fragment u |}.

Definition withScheme (u : url_URL) (scheme : string) : url_URL :=
  {| Scheme := scheme; Opaque := Opaque u; User := User u; Host := Host u;
     Path := Path u; RawPath := RawPath u; ForceQuery := ForceQuery u;
     RawQuery := RawQuery u; Fragment := Fragment u |}.

(** ** The crawl worker *)

(** What a call of [crawl] does: it prints an error and returns, or it sends
    [urlsToVet] on [vettingQueue] and [toCrawl] on [finished]. *)
Inductive CrawlOutcome :=
| GetFailed (err : error)
| BadStatus (StatusCode : Z)
| Crawled (urlsToVet : list website) (finished : website).

Section Crawl.
Context `{UrlPkg}.

(** One turn of the loop over [allLinks]. *)
Definition crawlLink (toCrawl : website) (urlsToVet : list website)
  (link : string) : list website :=
  match url_Parse link with
  | None => urlsToVet
  | Some parsedURL =>
      let parsedURL :=
        if (URL_Hostname parsedURL =? "")%string
        then withHost parsedURL (URL_Hostname (URL toCrawl))
        else parsedURL in
      let parsedURL :=
        if (Scheme parsedURL =? "")%string
        then withScheme parsedURL "http"
        else parsedURL in
      let toVet := {| referrer := URL toCrawl; URL := parsedURL |} in
      urlsToVet ++ [toVet]
  end.

(** [urlsToVet] when the loop ends: [make([]website, len(allLinks))] is a
    slice of that many zero values, and the loop appends to it. *)
Definition crawlLinks (toCrawl : website) (allLinks : list string)
  : list website :=
  fold_left (crawlLink toCrawl) allLinks
            (replicate (length allLinks) zeroWebsite).

(** The links as the specification normalizes them: a link that does not
    parse is dropped, an empty host name is replaced by the one of the
    crawled page, an empty scheme by [http]. *)
Definition normalizeLink (toCrawl : website) (link : string) : option website :=
  match url_Parse link with
  | None => None
  | Some parsedURL =>
      let hosted :=
        if (URL_Hostname parsedURL =? "")%string
        then withHost parsedURL (URL_Hostname (URL toCrawl))
        else parsedURL in
      let schemed :=
        if (Scheme hosted =? "")%string then withScheme hosted "http"
        else hosted in
      Some {| referrer := URL toCrawl; URL := schemed |}
  end.

Definition normalizedLinks (toCrawl : website) (allLinks : list string)
  : list website :=
  omap (normalizeLink toCrawl) allLinks.

Definition crawl (client : Client) (toCrawl : website) (net : Network)
  : CrawlOutcome * Network :=
  let '(response, net) := client_Get client (URL_String (URL toCrawl)) net in
  match response with
  | TransportError err => (GetFailed err, net)
  | Response StatusCode body =>
      if (399 <? StatusCode) || (StatusCode <? 200)
      then (BadStatus StatusCode, net)
      else
        let allLinks := collectlinks_All body in
        (Crawled (crawlLinks toCrawl allLinks) toCrawl, net)
  end.
End Crawl.

(** ** The manager

    The goroutine of [manager] is the only reader of [vettingQueue] and the
    only user of [visited] and [rulesIndex]; it handles the websites of the
    batches it receives one after the other.  [trace] records, in order,
    what it does besides updating its maps. *)

Inductive Event :=
| CallGet (hostname : string)
| Println (err : error)
| Skipping (fullURL : string)
| StartWorker (toCrawl : website) (delay : Z).

Record ManagerState := mkManagerState {
  visited : Set_;
  rulesIndex : RulesIndex;
  network : Network;
  trace : list Event;
}.

Section Manager.
Context `{StringsPkg} `{UrlPkg}.

(** The body of the inner loop of [manager] for one [toVet]. *)
Definition vet (st : ManagerState) (toVet : website) : option ManagerState :=
  let fullURL := URL_String (URL toVet) in
  if hasKey (visited st) fullURL then Some st
  else
    visited ← store (visited st) fullURL;
    let hostname := URL_Hostname (URL toVet) in
    '(rules, err, index, net) ← Get (rulesIndex st) hostname (network st);
    let trace := trace st ++ [CallGet hostname] in
    match err with
    | Some err =>
        Some {| visited := visited; rulesIndex := index; network := net;
                trace := trace ++ [Println err] |}
    | None =>
        if negb (Test rules (Path (URL toVet)))
        then Some {| visited := visited; rulesIndex := index; network := net;
                     trace := trace ++ [Skipping fullURL] |}
        else Some {| visited := visited; rulesIndex := index; network := net;
                     trace := trace ++ [StartWorker toVet (Delay rules)] |}
    end.

(** What [vet] appends to the trace after the call of [Get]. *)
Definition verdict (toVet : website) (result : CrawlRules * option error)
  : Event :=
  match result with
  | (_, Some err) => Println err
  | (rules, None) =>
      if negb (Test rules (Path (URL toVet)))
      then Skipping (URL_String (URL toVet))
      else StartWorker toVet (Delay rules)
  end.

Fixpoint vetBatch (st : ManagerState) (batch : list website)
  : option ManagerState :=
  match batch with
  | [] => Some st
  | toVet :: rest => st' ← vet st toVet; vetBatch st' rest
  end.

Fixpoint vetBatches (st : ManagerState) (batches : list (list website))
  : option ManagerState :=
  match batches with
  | [] => Some st
  | batch :: rest => st' ← vetBatch st batch; vetBatches st' rest
  end.

(** The state [manager] starts its goroutine in. *)
Definition managerStart (client : Client) (net : Network) : ManagerState :=
  {| visited := make_Set; rulesIndex := NewRulesIndex client;
     network := net; trace := [] |}.

(** [manager] after it has taken the seed and then [received] from
    [vettingQueue]. *)
Definition manager (client : Client) (initialURL : url_URL)
  (received : list (list website)) (net : Network) : option ManagerState :=
  vetBatches (managerStart client net)
             ([{| referrer := zeroURL; URL := initialURL |}] :: received).
End Manager.

(** Whether [ev] starts a worker for the URL whose string form is
    [fullURL], and how many events of a trace do. *)
Definition startsFor `{UrlPkg} (fullURL : string) (ev : Event) : bool :=
  match ev with
  | StartWorker toCrawl _ => (URL_String (URL toCrawl) =? fullURL)%string
  | _ => false
  end.

Definition workersFor `{UrlPkg} (fullURL : string) (events : list Event) : nat :=
  length (List.filter (startsFor fullURL) events).

(** [visited] is allocated and holds the string form of every URL a worker
    was started for, and no URL has more than one worker. *)
Definition admitted `{UrlPkg} (st : ManagerState) : Prop :=
  is_Some (visited st)
  ∧ ∀ fullURL,
      (workersFor fullURL (trace st)
       ≤ if hasKey (visited st) fullURL then 1 else 0)%nat.

(** ** An instance of the URL library for running the code

    [knownURLs] lists what [url.Parse] returns on a few strings; elsewhere
    the instance reports a parse error.  [plainString] is [URL.String] for a
    URL without opaque part or user whose text needs no escaping, and
    [plainHostname] is [URL.Hostname] for a host that is not a bracketed
    literal.  The link extractor of the instance reads one link per line. *)

Definition knownURLs : list (string * url_URL) :=
  [ ("/foo", {| Scheme := ""; Opaque := ""; User := None; Host := "";
                Path := "/foo"; RawPath := ""; ForceQuery := false;
                RawQuery := ""; Fragment := "" |});
    ("http://example.com/bar",
     {| Scheme := "http"; Opaque := ""; User := None; Host := "example.com";
        Path := "/bar"; RawPath := ""; ForceQuery := false;
        RawQuery := ""; Fragment := "" |});
    ("//cdn.example.org/lib.js",
     {| Scheme := ""; Opaque := ""; User := None; Host := "cdn.example.org";
        Path := "/lib.js"; RawPath := ""; ForceQuery := false;
        RawQuery := ""; Fragment := "" |});
    ("https://example.com/private",
     {| Scheme := "https"; Opaque := ""; User := None; Host := "example.com";
        Path := "/private"; RawPath := ""; ForceQuery := false;
        RawQuery := ""; Fragment := "" |}) ].

Fixpoint lookupURL (table : list (string * url_URL)) (s : string)
  : option url_URL :=
  match table with
  | [] => None
  | (known, u) :: rest => if (known =? s)%string then Some u else lookupURL rest s
  end.

Definition firstByteIs (c : ascii) (s : string) : bool :=
  match s with
  | String c' _ => Ascii.eqb c c'
  | EmptyString => false
  end.

Definition plainString (u : url_URL) : string :=
  let nonEmpty s := negb (s =? "")%string in
  (if nonEmpty (Scheme u) then Scheme u +:+ ":" else "")
  +:+ (if nonEmpty (Scheme u) || nonEmpty (Host u)
       then (if nonEmpty (Host u) || nonEmpty (Path u) then "//" else "")
            +:+ Host u
       else "")
  +:+ (if nonEmpty (Path u) && negb (firstByteIs "/" (Path u)) && nonEmpty (Host u)
       then "/" else "")
  +:+ Path u
  +:+ (if ForceQuery u || nonEmpty (RawQuery u) then "?" +:+ RawQuery u else "")
  +:+ (if nonEmpty (Fragment u) then "#" +:+ Fragment u else "").

(** The text before the last colon and the text after it. *)
Fixpoint splitLastColon (s : string) : option (string * string) :=
  match s with
  | EmptyString => None
  | String c rest =>
      match splitLastColon rest with
      | Some (before, after) => Some (String c before, after)
      | None => if Ascii.eqb c ":" then Some (EmptyString, rest) else None
      end
  end.

Definition allDigits (s : string) : bool :=
  match digitsValue s 0 with Some _ => true | None => false end.

Definition plainHostname (u : url_URL) : string :=
  match splitLastColon (Host u) with
  | Some (host, port) => if allDigits port then host else Host u
  | None => Host u
  end.

Definition linesAsLinks (body : Body) : list string :=
  match body with
  | ReadError _ => []
  | ReadBody body => List.filter (λ l, negb (l =? "")%string) (Split body)
  end.

#[export] Instance plain_urls : UrlPkg :=
  {| url_Parse := lookupURL knownURLs;
     URL_String := plainString;
     URL_Hostname := plainHostname;
     collectlinks_All := linesAsLinks |}.

(** Clients for the examples: one that answers every request with the same
    reply, and one that serves [robots] as every robots.txt and [page] as
    every other document. *)
Definition always (reply : Reply) : Client := λ _ _, reply.

Definition serving (robots page : string) : Client :=
  λ _ url,
    match SplitN2 "/robots.txt" url with
    | Some _ => Response 200 (ReadBody robots)
    | None => Response 200 (ReadBody page)
    end.

(** A client whose first request fails and which serves [robots] after. *)
Definition flaky (robots : string) : Client :=
  λ net _,
    match net with
    | [] => TransportError "timeout"
    | _ => Response 200 (ReadBody robots)
    end.

(** A client that refuses a request without a host, as [http.Transport]
    does, and answers 404 to every other one. *)
Definition refusingNoHost : Client :=
  λ _ url,
    if String.prefix "http:///" url
    then TransportError "http: no Host in request URL"
    else Response 404 (ReadBody "").

Definition examplePage : website :=
  {| referrer := zeroURL;
     URL := {| Scheme := "http"; Opaque := ""; User := None;
               Host := "example.com"; Path := "/bar"; RawPath := "";
               ForceQuery := false; RawQuery := ""; Fragment := "" |} |}.


Definition twoLinksPage : string := "/foo" +:+ lf +:+ ":bad".

Definition fooLink : website :=
  {| referrer := URL examplePage;
     URL := {| Scheme := "http"; Opaque := ""; User := None;
               Host := "example.com"; Path := "/foo"; RawPath := "";
               ForceQuery := false; RawQuery := ""; Fragment := "" |} |}.

(** Rules and documents for the examples. *)
Definition sampleRules : CrawlRules :=
  {| DisallowedPaths := Some (<["/a" := true]> (<["/b" := true]> ∅));
     AllowedPaths := Some (<["/a" := true]> ∅);
     Delay := 1 * Second |}.

Definition cappedBody : string :=
  "user-agent: *" +:+ lf +:+ "crawl-delay: 120".

Definition politeBody : string :=
  "# robots" +:+ lf +:+ "User-Agent: Grawler" +:+ lf +:+ "Crawl-Delay: 7"
  +:+ lf +:+ "Disallow: /private".

(** A negative crawl-delay in a block for another crawler, then a block for
    every crawler with a negative crawl-delay that a later one replaces. *)
Definition passedOverBody : string :=
  "user-agent: other-bot" +:+ lf +:+ "crawl-delay: -5" +:+ lf
  +:+ "user-agent: *" +:+ lf +:+ "crawl-delay: -3" +:+ lf
  +:+ "crawl-delay: 12".

Definition negativeBody : string :=
  "user-agent: *" +:+ lf +:+ "crawl-delay: -5".

Definition overflowBody : string :=
  "user-agent: *" +:+ lf +:+ "crawl-delay: -9223372037".

Definition otherBotBody : string :=
  "user-agent: other-bot" +:+ lf +:+ "disallow: /x".

(** ** The manager that fetches the rules itself

    The other version of the command keeps the rules in a map of its own,
    [visitingRules], and fills it with [robots.FetchCrawlRules]; its worker
    waits by itself, so the manager starts it at once. *)

Section Exported.
Context `{StringsPkg}.

(** [robots.FetchCrawlRules], whose loop over the lines is the one of
    [parseBody]. *)
Definition FetchCrawlRules (client : Client) (domain : string) (net : Network)
  : option ((CrawlRules * option error) * Network) :=
  let url := "http://" +:+ domain +:+ "/robots.txt" in
  let '(response, net) := client_Get client url net in
  match response with
  | TransportError err => Some ((newCrawlRules, Some err), net)
  | Response StatusCode body =>
      if (399 <? StatusCode) || (StatusCode <? 200)
      then Some ((newCrawlRules, None), net)
      else
        match body with
        | ReadError err => Some ((newCrawlRules, Some err), net)
        | ReadBody body =>
            crawlRules ← parseBody body;
            Some ((crawlRules, None), net)
        end
  end.
End Exported.

Module Direct.

Inductive Event :=
| Println (err : error)
| StartCrawl (toCrawl : website).

Record ManagerState := mkManagerState {
  visited : Set_;
  visitingRules : gmap string CrawlRules;
  network : Network;
  trace : list Event;
}.

Section Manager.
Context `{StringsPkg} `{UrlPkg}.

(** The body of the inner loop of this [manager] for one [toVet]. *)
Definition vet (client : Client) (st : ManagerState) (toVet : website)
  : option ManagerState :=
  if hasKey (visited st) (URL_String (URL toVet)) then Some st
  else
    visited ← store (visited st) (URL_String (URL toVet));
    let hostname := URL_Hostname (URL toVet) in
    let path := Path (URL toVet) in
    if (hostname =? "")%string
    then Some {| visited := visited; visitingRules := visitingRules st;
                 network := network st; trace := trace st |}
    else
      '(err, visitingRules, net) ←
        match visitingRules st !! hostname with
        | None =>
            '(crawlRules, err, net) ← FetchCrawlRules client hostname (network st);
            match err with
            | Some err => Some (Some err, visitingRules st, net)
            | None =>
                Some (None, <[hostname := crawlRules]> (visitingRules st), net)
            end
        | Some _ => Some (None, visitingRules st, network st)
        end;
      match err with
      | Some err =>
          Some {| visited := visited; visitingRules := visitingRules;
                  network := net; trace := trace st ++ [Println err] |}
      | None =>
          match visitingRules !! hostname with
          | None =>
              Some {| visited := visited; visitingRules := visitingRules;
                      network := net; trace := trace st |}
          | Some rules =>
              if negb (hasKey (AllowedPaths rules) path)
                 && hasKey (DisallowedPaths rules) path
              then Some {| visited := visited; visitingRules := visitingRules;
                           network := net; trace := trace st |}
              else Some {| visited := visited; visitingRules := visitingRules;
                           network := net;
                           trace := trace st ++ [StartCrawl toVet] |}
          end
      end.

Fixpoint vetBatch (client : Client) (st : ManagerState) (batch : list website)
  : option ManagerState :=
  match batch with
  | [] => Some st
  | toVet :: rest => st' ← vet client st toVet; vetBatch client st' rest
  end.

Fixpoint vetBatches (client : Client) (st : ManagerState)
  (batches : list (list website)) : option ManagerState :=
  match batches with
  | [] => Some st
  | batch :: rest => st' ← vetBatch client st batch; vetBatches client st' rest
  end.

Definition managerStart (net : Network) : ManagerState :=
  {| visited := make_Set; visitingRules := ∅; network := net; trace := [] |}.

Definition manager (client : Client) (initialURL : url_URL)
  (received : list (list website)) (net : Network) : option ManagerState :=
  vetBatches client (managerStart net)
             ([{| referrer := zeroURL; URL := initialURL |}] :: received).
End Manager.

End Direct.

(** What the trace of the manager with the index shows of an event of the
    manager without it: the errors printed and the workers started. *)
Definition directEvent (ev : Event) : list Direct.Event :=
  match ev with
  | CallGet _ => []
  | Println err => [Direct.Println err]
  | Skipping _ => []
  | StartWorker toCrawl _ => [Direct.StartCrawl toCrawl]
  end.

(** The two managers are in step: the same [visited], the same rules, the
    same requests made and the same errors and workers. *)
Definition inStep (st : ManagerState) (c : Client) (dst : Direct.ManagerState)
  : Prop :=
  visited st = Direct.visited dst
  ∧ client (rulesIndex st) = c
  ∧ rules (rulesIndex st) = Direct.visitingRules dst
  ∧ network st = Direct.network dst
  ∧ flat_map directEvent (trace st) = Direct.trace dst.

(** The number of keys of a set; [len] of a nil map is 0. *)
Definition len (s : Set_) : nat :=
  match s with
  | Some m => size m
  | None => 0%nat
  end.

(** The disallow and allow lines of the example host. *)
Definition mixedBody : string :=
  "user-agent: grawler" +:+ lf +:+ "disallow: /private " +:+ lf
  +:+ "user-agent: other-bot" +:+ lf +:+ "disallow: /public" +:+ lf
  +:+ "User-agent: *" +:+ lf +:+ "Allow: /private".

Definition privatePage : website :=
  {| referrer := URL examplePage;
     URL := {| Scheme := "https"; Opaque := ""; User := None;
               Host := "example.com"; Path := "/private"; RawPath := "";
               ForceQuery := false; RawQuery := ""; Fragment := "" |} |}.

(** * Properties *)

(** ** Integers *)

Lemma wrap64_small z : minInt64 ≤ z ≤ maxInt64 → wrap64 z = z.
Proof.
  unfold wrap64, minInt64, maxInt64. intros Hz.
  rewrite Z.mod_small; lia.
Qed.

Lemma float64_exact count : Z.abs count < 2 ^ 53 → float64 count = count.
Proof.
  unfold float64. intros Hc.
  destruct (Z.ltb_spec (Z.abs count) (2 ^ 53)); [reflexivity | lia].
Qed.

Lemma float64_large count : 2 ^ 53 ≤ count → 2 ^ 52 ≤ float64 count.
Proof.
  intros Hc. unfold float64.
  rewrite (Z.abs_eq count) by lia.
  destruct (Z.ltb_spec count (2 ^ 53)) as [|_]; [lia|].
  assert (Hlog : 53 ≤ Z.log2 count) by (apply Z.log2_le_pow2; lia).
  set (e := Z.log2 count - 52).
  assert (He : 0 < e) by (unfold e; lia).
  assert (Hq : 2 ^ 52 ≤ Z.shiftr count e).
  { rewrite Z.shiftr_div_pow2 by lia.
    apply Z.div_le_lower_bound; [apply Z.pow_pos_nonneg; lia|].
    rewrite <- Z.pow_add_r by lia.
    replace (e + 52) with (Z.log2 count) by (unfold e; lia).
    apply Z.log2_spec. lia. }
  assert (Hpow : 1 ≤ 2 ^ e) by (apply (Z.pow_le_mono_r 2 0 e); lia).
  rewrite Z.sgn_pos, Z.mul_1_l, Z.shiftl_mul_pow2 by lia.
  destruct ((_ <? _) || _); nia.
Qed.

Lemma float64_ge_30 count : 30 ≤ count → 30 ≤ float64 count.
Proof.
  intros Hc. destruct (Z_lt_le_dec count (2 ^ 53)) as [Hlt|Hge].
  - rewrite float64_exact; lia.
  - pose proof (float64_large count Hge). lia.
Qed.

Lemma float64_nonneg count : 0 ≤ count → 0 ≤ float64 count.
Proof.
  intros Hc. unfold float64.
  destruct (Z.abs count <? 2 ^ 53); [done|].
  assert (0 ≤ Z.sgn count) by (by apply Z.sgn_nonneg).
  apply Z.mul_nonneg_nonneg; [done|]. apply Z.shiftl_nonneg.
  assert (0 ≤ Z.shiftr (Z.abs count) (Z.log2 (Z.abs count) - 52))
    by (apply Z.shiftr_nonneg; lia).
  destruct ((_ <? _) || _); lia.
Qed.

(** Rounding an [int] never leaves the int64 range downwards, so the
    conversion back by [int64] is applied to a number it can hold. *)
Lemma float64_above_minInt64 count : minInt64 ≤ count → minInt64 ≤ float64 count.
Proof.
  unfold minInt64. intros Hc.
  destruct (Z_lt_le_dec count 0) as [Hneg|Hpos];
    [|pose proof (float64_nonneg count Hpos); lia].
  destruct (Z_lt_le_dec (Z.abs count) (2 ^ 53)) as [Hsmall|Hbig];
    [rewrite float64_exact; lia|].
  destruct (Z.eq_dec count (- 2 ^ 63)) as [->|Hne]; [by vm_compute|].
  unfold float64. destruct (Z.ltb_spec (Z.abs count) (2 ^ 53)) as [|_]; [lia|].
  set (a := Z.abs count) in *.
  assert (Ha : a < 2 ^ 63) by lia.
  assert (Hlog : 53 ≤ Z.log2 a < 63).
  { split; [apply Z.log2_le_pow2; lia | apply Z.log2_lt_pow2; lia]. }
  set (e := Z.log2 a - 52).
  assert (He : 0 < e ≤ 10) by (unfold e; lia).
  assert (Hq : Z.shiftr a e < 2 ^ 53).
  { rewrite Z.shiftr_div_pow2 by lia.
    apply Z.div_lt_upper_bound; [apply Z.pow_pos_nonneg; lia|].
    rewrite <- Z.pow_add_r by lia.
    replace (e + 53) with (Z.succ (Z.log2 a)) by (unfold e; lia).
    apply Z.log2_spec. lia. }
  assert (Hq0 : 0 ≤ Z.shiftr a e) by (apply Z.shiftr_nonneg; lia).
  assert (Hpow : 0 < 2 ^ e ≤ 2 ^ 10).
  { split; [apply Z.pow_pos_nonneg; lia | apply Z.pow_le_mono_r; lia]. }
  rewrite Z.sgn_neg, Z.shiftl_mul_pow2 by lia.
  destruct ((_ <? _) || _); nia.
Qed.

(** The delay a count gives when the count is not too negative. *)
Lemma delayOfCount_seconds count :
  -9223372036 ≤ count → delayOfCount count = Z.min 30 count * Second.
Proof.
  intros Hc. unfold delayOfCount, int64, math_Min, Second.
  destruct (Z_lt_le_dec count 30) as [Hlt|Hge].
  - rewrite float64_exact by lia.
    rewrite Z.min_r by lia. apply wrap64_small.
    unfold minInt64, maxInt64. lia.
  - pose proof (float64_ge_30 count Hge).
    rewrite !Z.min_l by lia. reflexivity.
Qed.

Lemma delayOfCount_bounds lo count :
  -9223372036 ≤ lo → lo ≤ count →
  Z.min 30 lo * Second ≤ delayOfCount count ≤ 30 * Second.
Proof.
  intros Hlo Hc. rewrite delayOfCount_seconds by lia. unfold Second. lia.
Qed.

Lemma Atoi_range s n : Atoi s = Some n → minInt64 ≤ n ≤ maxInt64.
Proof.
  unfold Atoi. destruct s as [|c rest]; [discriminate|].
  cbv zeta.
  destruct (if _ || _ then rest else String c rest); [discriminate|].
  destruct (digitsValue _ 0) as [v|]; [|discriminate].
  destruct (_ && _) eqn:Hr; [|discriminate].
  intros [= <-]. apply andb_true_iff in Hr as [H1 H2].
  apply Z.leb_le in H1, H2. lia.
Qed.

(** ** The reader, line by line *)

Section ParserFacts.
Context `{StringsPkg}.

Ltac read_line line :=
  unfold parseLine, namesThisAgent, lineCount, directiveOf in *;
  destruct (isBlankOrComment line); simplify_eq/=; eauto 10;
  destruct (SplitN2 ": " line) as [[c0 val]|]; simplify_eq/=; eauto 10.

Lemma parseLine_no_directive crawlRules respectRules line :
  directiveOf line = None →
  parseLine (crawlRules, respectRules) line = Some (crawlRules, respectRules).
Proof. intros Hd. read_line line. Qed.

Lemma parseLine_this_agent crawlRules respectRules line :
  namesThisAgent line = true →
  parseLine (crawlRules, respectRules) line = Some (crawlRules, true).
Proof. intros Hd. read_line line. by rewrite Hd. Qed.

(** With the flag down, a line that does not raise it changes nothing. *)
Lemma parseLine_not_respected crawlRules line :
  namesThisAgent line = false →
  parseLine (crawlRules, false) line = Some (crawlRules, false).
Proof.
  intros Hd. read_line line. rewrite Hd.
  by destruct (ToLower c0 =? "user-agent")%string.
Qed.

Lemma parseLine_crawl_delay crawlRules line value :
  directiveOf line = Some ("crawl-delay", value) →
  parseLine (crawlRules, true) line =
    Some (match Atoi value with
          | Some count => withDelay crawlRules (delayOfCount count)
          | None => crawlRules
          end, true).
Proof.
  intros Hd. read_line line.
  match goal with Hc : ToLower _ = _ |- _ => rewrite Hc end. simpl.
  by destruct (Atoi value).
Qed.

(** A line leaves allocated sets allocated, so it does not panic; the delay
    afterwards is the one before or the one its count gives. *)
Lemma parseLine_allocated crawlRules respectRules line :
  allocated crawlRules →
  ∃ crawlRules' respectRules',
    parseLine (crawlRules, respectRules) line = Some (crawlRules', respectRules')
    ∧ allocated crawlRules'
    ∧ (Delay crawlRules' = Delay crawlRules
       ∨ ∃ count, lineCount line = Some count
                  ∧ Delay crawlRules' = delayOfCount count).
Proof.
  intros [[d Hd] [a Ha]]. unfold allocated.
  read_line line.
  destruct ((ToLower c0 =? "user-agent")%string && _); [eauto 10|].
  destruct (negb _); [eauto 10|].
  destruct (ToLower c0 =? "allow")%string.
  { rewrite Ha. simpl. rewrite Hd. eauto 10. }
  destruct (ToLower c0 =? "disallow")%string.
  { rewrite Hd. simpl. rewrite Ha. eauto 10. }
  destruct (ToLower c0 =? "crawl-delay")%string; [|eauto 10].
  destruct (Atoi val) as [count|]; simpl; eauto 10.
Qed.

(** What one line does to the delay: nothing, or, for a crawl-delay line
    read with the flag up whose value is an integer, set it from that
    integer; [appliedCounts] lists exactly these integers. *)
Lemma parseLine_delay crawlRules respectRules line :
  allocated crawlRules →
  ∃ crawlRules' respectRules',
    parseLine (crawlRules, respectRules) line = Some (crawlRules', respectRules')
    ∧ allocated crawlRules'
    ∧ ∀ rest,
        (appliedCounts respectRules (line :: rest)
         = appliedCounts respectRules' rest
         ∧ Delay crawlRules' = Delay crawlRules)
        ∨ ∃ count,
            appliedCounts respectRules (line :: rest)
            = count :: appliedCounts respectRules' rest
            ∧ Delay crawlRules' = delayOfCount count.
Proof.
  intros [[d Hd] [a Ha]]. unfold allocated. cbn [appliedCounts].
  unfold parseLine, directiveOf.
  destruct (isBlankOrComment line); [eauto 10|].
  destruct (SplitN2 ": " line) as [[c0 val]|]; [|eauto 10].
  destruct (ToLower c0 =? "user-agent")%string eqn:Hua; simpl.
  { destruct ((val =? "*")%string || (ToLower val =? "grawler")%string);
      simpl; eauto 10. }
  destruct respectRules; simpl; [|eauto 10].
  destruct (String.eqb_spec (ToLower c0) "allow") as [Hdir|_].
  { rewrite Ha, Hdir. simpl. rewrite Hd. eauto 10. }
  destruct (String.eqb_spec (ToLower c0) "disallow") as [Hdir|_].
  { rewrite Hd, Hdir. simpl. rewrite Ha. eauto 10. }
  destruct (ToLower c0 =? "crawl-delay")%string; [|eauto 10].
  destruct (Atoi val) as [count|]; simpl; eauto 10.
Qed.

(** The delay after a run of the loop is the one the last applied integer
    gives, or the delay before when no integer is applied. *)
Lemma parseLines_delay lines : ∀ crawlRules respectRules,
  allocated crawlRules →
  ∃ crawlRules' respectRules',
    parseLines (crawlRules, respectRules) lines = Some (crawlRules', respectRules')
    ∧ allocated crawlRules'
    ∧ Delay crawlRules'
      = match last (appliedCounts respectRules lines) with
        | Some count => delayOfCount count
        | None => Delay crawlRules
        end.
Proof.
  induction lines as [|line lines IH]; intros crawlRules respectRules Ha.
  { simpl. eauto. }
  destruct (parseLine_delay crawlRules respectRules line Ha)
    as (r1 & b1 & Hstep & Ha1 & Hcounts).
  destruct (IH r1 b1 Ha1) as (r' & b' & Hrun & Ha' & Hdelay).
  exists r', b'. cbn [parseLines]. rewrite Hstep.
  split; [done|]. split; [done|]. rewrite Hdelay.
  destruct (Hcounts lines) as [[-> ->]|(count & -> & Hd1)].
  - done.
  - rewrite last_cons, Hd1. by destruct (last (appliedCounts b1 lines)).
Qed.

Lemma newCrawlRules_allocated : allocated newCrawlRules.
Proof. split; eexists; reflexivity. Qed.

Lemma parseLines_total lines : ∀ crawlRules respectRules,
  allocated crawlRules →
  ∃ crawlRules' respectRules',
    parseLines (crawlRules, respectRules) lines = Some (crawlRules', respectRules')
    ∧ allocated crawlRules'.
Proof.
  induction lines as [|line lines IH]; intros crawlRules respectRules Ha.
  - simpl. eauto.
  - destruct (parseLine_allocated crawlRules respectRules line Ha)
      as (r & b & Hstep & Ha' & _).
    cbn [parseLines]. rewrite Hstep. simpl. by apply IH.
Qed.

(** The reader returns rules for every body. *)
Lemma parseBody_total body :
  ∃ crawlRules, parseBody body = Some crawlRules ∧ allocated crawlRules.
Proof.
  destruct (parseLines_total (Split body) newCrawlRules false
              newCrawlRules_allocated) as (r & b & Hr & Ha).
  exists r. unfold parseBody. by rewrite Hr.
Qed.

Lemma parseLines_not_respected lines : ∀ crawlRules,
  neverNamed lines = true →
  parseLines (crawlRules, false) lines = Some (crawlRules, false).
Proof.
  induction lines as [|line lines IH]; intros crawlRules Hall; [done|].
  simpl in Hall. apply andb_true_iff in Hall as [Hline Hrest].
  apply negb_true_iff in Hline.
  cbn [parseLines]. rewrite parseLine_not_respected by done. simpl. by apply IH.
Qed.
End ParserFacts.

Lemma hasKey_member s key : hasKey s key = true ↔ member key s.
Proof.
  unfold hasKey, member. split.
  - destruct s as [m|]; [|done]. destruct (m !! key) eqn:Hk; [|done]. eauto.
  - intros (m & -> & [v Hv]). by rewrite Hv.
Qed.

Lemma hasKey_not_member s key : hasKey s key = false ↔ ¬ member key s.
Proof. rewrite <- hasKey_member. by destruct (hasKey s key). Qed.

(** ** [Test] *)

(** C1: [Test] answers true for a path in [AllowedPaths], whatever
    [DisallowedPaths] holds; otherwise false for a path in
    [DisallowedPaths]; otherwise true. *)
Theorem Test_allow_overrides_disallow (rules : CrawlRules) (path : string) :
  (member path (AllowedPaths rules) → Test rules path = true)
  ∧ (¬ member path (AllowedPaths rules) →
     member path (DisallowedPaths rules) → Test rules path = false)
  ∧ (¬ member path (AllowedPaths rules) →
     ¬ member path (DisallowedPaths rules) → Test rules path = true).
Proof.
  unfold Test. repeat split.
  - intros Ha%hasKey_member. by rewrite Ha.
  - intros Ha%hasKey_not_member Hd%hasKey_member. by rewrite Ha, Hd.
  - intros Ha%hasKey_not_member Hd%hasKey_not_member. by rewrite Ha, Hd.
Qed.

Lemma sampleRules_members :
  member "/a" (AllowedPaths sampleRules)
  ∧ member "/a" (DisallowedPaths sampleRules)
  ∧ ¬ member "/b" (AllowedPaths sampleRules)
  ∧ member "/b" (DisallowedPaths sampleRules)
  ∧ ¬ member "/c" (AllowedPaths sampleRules)
  ∧ ¬ member "/c" (DisallowedPaths sampleRules).
Proof.
  rewrite <- !hasKey_not_member, <- !hasKey_member. by vm_compute.
Qed.

Lemma Test_allow_overrides_disallow_witness :
  Test sampleRules "/a" = true
  ∧ Test sampleRules "/b" = false
  ∧ Test sampleRules "/c" = true.
Proof.
  destruct sampleRules_members as (Ha & _ & Hb & Hb' & Hc & Hc').
  split; [|split].
  - exact (proj1 (Test_allow_overrides_disallow sampleRules "/a") Ha).
  - exact (proj1 (proj2 (Test_allow_overrides_disallow sampleRules "/b")) Hb Hb').
  - exact (proj2 (proj2 (Test_allow_overrides_disallow sampleRules "/c")) Hc Hc').
Defined.

(** ** The delay *)

(** C4, as the code has it: the reader returns rules for every body, and
    their delay is the one second of [newCrawlRules] when the loop applies no
    crawl-delay integer, and otherwise the delay the last integer it applies
    gives.  So when that last integer, if there is one, is at least [lo],
    for a [lo] from -9223372036 to 0, the delay lies between [lo] seconds
    and 30 seconds; with [lo = 0] it is never negative and never above 30
    seconds.  Crawl-delay lines the loop passes over with the flag down, and
    integers a later applied one replaces, do not matter. *)
Theorem parseBody_delay_bounds `{StringsPkg} (body : string) (lo : Z) :
  -9223372036 ≤ lo ≤ 0 →
  (∀ count, lastCount body = Some count → lo ≤ count) →
  ∃ crawlRules,
    parseBody body = Some crawlRules
    ∧ Delay crawlRules
      = match lastCount body with
        | Some count => delayOfCount count
        | None => 1 * Second
        end
    ∧ lo * Second ≤ Delay crawlRules ≤ 30 * Second.
Proof.
  intros Hlo Hlast.
  destruct (parseLines_delay (Split body) newCrawlRules false
              newCrawlRules_allocated) as (r & b & Hr & _ & Hd).
  exists r. unfold parseBody. rewrite Hr. split; [done|].
  fold (lastCount body) in Hd. split; [done|]. rewrite Hd.
  destruct (lastCount body) as [count|].
  - pose proof (delayOfCount_bounds lo count (proj1 Hlo) (Hlast count eq_refl)).
    rewrite Z.min_r in *; lia.
  - simpl. unfold Second. lia.
Qed.

Lemma parseBody_delay_bounds_witness :
  ∃ crawlRules,
    parseBody passedOverBody = Some crawlRules
    ∧ Delay crawlRules
      = match lastCount passedOverBody with
        | Some count => delayOfCount count
        | None => 1 * Second
        end
    ∧ 0 * Second ≤ Delay crawlRules ≤ 30 * Second.
Proof.
  apply (parseBody_delay_bounds passedOverBody 0); [lia|].
  intros count Hlast. vm_compute in Hlast. injection Hlast as <-. lia.
Defined.

(** A negative crawl-delay gives a negative delay, and one below
    -9223372036 wraps around to a delay far above 30 seconds. *)
Lemma parseBody_delay_counterexample :
  (∃ crawlRules, parseBody negativeBody = Some crawlRules
                 ∧ Delay crawlRules = -5 * Second
                 ∧ ¬ 0 ≤ Delay crawlRules)
  ∧ (∃ crawlRules, parseBody overflowBody = Some crawlRules
                   ∧ Delay crawlRules = 9223372036709551616
                   ∧ ¬ Delay crawlRules ≤ 30 * Second).
Proof.
  split.
  - destruct (parseBody negativeBody) as [r|] eqn:Hr; [|by vm_compute in Hr].
    exists r. split; [done|].
    assert (Hd : Delay <$> parseBody negativeBody = Some (-5 * Second))
      by (by vm_compute).
    rewrite Hr in Hd. injection Hd as Hd. split; [done|]. rewrite Hd. by vm_compute.
  - destruct (parseBody overflowBody) as [r|] eqn:Hr; [|by vm_compute in Hr].
    exists r. split; [done|].
    assert (Hd : Delay <$> parseBody overflowBody = Some 9223372036709551616)
      by (by vm_compute).
    rewrite Hr in Hd. injection Hd as Hd. split; [done|]. rewrite Hd. by vm_compute.
Qed.

(** C5, as the code has it: with the flag up, a crawl-delay line whose value
    reads as an integer of at least -9223372036 sets the delay to the
    smaller of 30 and that integer, in seconds, and one whose value does not
    read as an integer changes nothing.  [user-agent: *] followed by
    [crawl-delay: 120] gives 30 seconds, and [crawl-delay: abc] leaves the
    rules as they were. *)
Theorem crawl_delay_directive :
  (∀ (strings : StringsPkg) (crawlRules : CrawlRules) (line value : string),
     directiveOf line = Some ("crawl-delay", value) →
     (∀ count, Atoi value = Some count → -9223372036 ≤ count →
        parseLine (crawlRules, true) line
        = Some (withDelay crawlRules (Z.min 30 count * Second), true))
     ∧ (Atoi value = None →
        parseLine (crawlRules, true) line = Some (crawlRules, true)))
  ∧ Delay <$> parseBody cappedBody = Some (30 * Second)
  ∧ (∀ crawlRules : CrawlRules,
       parseLine (crawlRules, true) "crawl-delay: abc" = Some (crawlRules, true)).
Proof.
  split; [|split].
  - intros strings crawlRules line value Hd. split.
    + intros count Hcount Hlo.
      rewrite (parseLine_crawl_delay _ _ _ Hd), Hcount.
      by rewrite delayOfCount_seconds.
    + intros Hnone. by rewrite (parseLine_crawl_delay _ _ _ Hd), Hnone.
  - by vm_compute.
  - intros crawlRules.
    by rewrite (parseLine_crawl_delay crawlRules "crawl-delay: abc" "abc").
Qed.

Lemma crawl_delay_directive_witness :
  parseLine (newCrawlRules, true) "Crawl-Delay: 7"
  = Some (withDelay newCrawlRules (Z.min 30 7 * Second), true)
  ∧ parseLine (newCrawlRules, true) "crawl-delay: 7s" = Some (newCrawlRules, true).
Proof.
  split.
  - apply (proj1 (proj1 crawl_delay_directive ascii_strings newCrawlRules
                    "Crawl-Delay: 7" "7" eq_refl) 7); [reflexivity | lia].
  - apply (proj2 (proj1 crawl_delay_directive ascii_strings newCrawlRules
                    "crawl-delay: 7s" "7s" eq_refl)). reflexivity.
Defined.

(** [crawl-delay: -9223372037] reads as an integer, and the delay it sets is
    not that many seconds: the nanosecond count wraps around. *)
Lemma crawl_delay_directive_counterexample :
  directiveOf "crawl-delay: -9223372037" = Some ("crawl-delay", "-9223372037")
  ∧ Atoi "-9223372037" = Some (-9223372037)
  ∧ parseLine (newCrawlRules, true) "crawl-delay: -9223372037"
    = Some (withDelay newCrawlRules 9223372036709551616, true)
  ∧ 9223372036709551616 ≠ Z.min 30 (-9223372037) * Second.
Proof.
  split; [reflexivity|]. split; [reflexivity|]. split; [|by vm_compute].
  by rewrite (parseLine_crawl_delay newCrawlRules _ "-9223372037").
Qed.

(** ** User agents *)

Lemma parseLines_app `{StringsPkg} lines1 lines2 : ∀ st,
  parseLines st (lines1 ++ lines2)
  = parseLines st lines1 ≫= λ st', parseLines st' lines2.
Proof.
  induction lines1 as [|line lines1 IH]; intros st; [done|].
  cbn [parseLines app]. destruct (parseLine st line) as [st'|]; [|done].
  simpl. apply IH.
Qed.

(** C8: a body in which no user-agent line names this crawler or [*] gives
    the rules of [newCrawlRules], empty sets and a one-second delay; with
    the flag down, as it is before the first user-agent line, a line that
    does not raise it leaves the rules alone, and so do all the lines read
    before the flag is first raised.  The body [user-agent: other-bot],
    [disallow: /x] gives rules that do not disallow [/x]. *)
Theorem unmatched_agent_gives_default :
  (∀ (strings : StringsPkg) (body : string),
     neverNamed (Split body) = true → parseBody body = Some newCrawlRules)
  ∧ (∀ (strings : StringsPkg) (crawlRules : CrawlRules) (line : string),
       namesThisAgent line = false →
       parseLine (crawlRules, false) line = Some (crawlRules, false))
  ∧ (∀ (strings : StringsPkg) (before rest : list string),
       neverNamed before = true →
       parseLines (newCrawlRules, false) (before ++ rest)
       = parseLines (newCrawlRules, false) rest)
  ∧ (DisallowedPaths newCrawlRules = Some ∅
     ∧ AllowedPaths newCrawlRules = Some ∅
     ∧ Delay newCrawlRules = 1 * Second)
  ∧ (parseBody otherBotBody = Some newCrawlRules
     ∧ ¬ member "/x" (DisallowedPaths newCrawlRules)
     ∧ Test newCrawlRules "/x" = true).
Proof.
  split; [|split; [|split; [|split]]].
  - intros strings body Hnone. unfold parseBody.
    by rewrite parseLines_not_respected.
  - intros strings crawlRules line Hline. by apply parseLine_not_respected.
  - intros strings before rest Hnone.
    by rewrite parseLines_app, parseLines_not_respected.
  - done.
  - split; [|split].
    + unfold parseBody. by rewrite parseLines_not_respected.
    + by apply hasKey_not_member.
    + reflexivity.
Qed.

Lemma unmatched_agent_gives_default_witness :
  parseBody otherBotBody = Some newCrawlRules
  ∧ parseLine (sampleRules, false) "allow: /b" = Some (sampleRules, false)
  ∧ parseLines (newCrawlRules, false) (["disallow: /x"] ++ Split cappedBody)
    = parseLines (newCrawlRules, false) (Split cappedBody).
Proof.
  split; [|split].
  - apply (proj1 unmatched_agent_gives_default ascii_strings). reflexivity.
  - apply (proj1 (proj2 unmatched_agent_gives_default) ascii_strings).
    reflexivity.
  - apply (proj1 (proj2 (proj2 unmatched_agent_gives_default)) ascii_strings).
    reflexivity.
Defined.

(** ** The rules index *)

Section IndexFacts.
Context `{StringsPkg}.

(** A fetch makes one request and returns; without an error its rules have
    allocated sets. *)
Lemma fetchCrawlRules_total client domain net :
  ∃ crawlRules err,
    fetchCrawlRules client domain net
    = Some ((crawlRules, err), net ++ [robotsURL domain])
    ∧ allocated crawlRules.
Proof.
  unfold fetchCrawlRules, client_Get.
  destruct (client net (robotsURL domain)) as [err|StatusCode [err|body]].
  - eauto using newCrawlRules_allocated.
  - destruct (_ || _); eauto using newCrawlRules_allocated.
  - destruct (_ || _); [eauto using newCrawlRules_allocated|].
    destruct (parseBody_total body) as (r & -> & Hr). simpl. eauto.
Qed.

Lemma Get_cached index hostname net crawlRules :
  rules index !! hostname = Some crawlRules →
  Get index hostname net = Some ((crawlRules, None), index, net).
Proof. intros Hc. unfold Get, rulesAt. by rewrite Hc. Qed.

Lemma Get_uncached index hostname net :
  rules index !! hostname = None →
  ∃ crawlRules err,
    fetchCrawlRules (client index) hostname net
    = Some ((crawlRules, err), net ++ [robotsURL hostname])
    ∧ allocated crawlRules
    ∧ Get index hostname net
      = Some (match err with
              | Some err => ((zeroCrawlRules, Some err), index)
              | None =>
                  ((crawlRules, None),
                   {| client := client index;
                      rules := <[hostname := crawlRules]> (rules index) |})
              end, net ++ [robotsURL hostname]).
Proof.
  intros Hc.
  destruct (fetchCrawlRules_total (client index) hostname net)
    as (r & err & Hf & Ha).
  exists r, err. split; [done|]. split; [done|].
  unfold Get. rewrite Hc, Hf. simpl. destruct err; [done|].
  unfold rulesAt. simpl. by rewrite lookup_insert_eq.
Qed.

(** [Get] returns, whatever the index holds and the client answers. *)
Lemma Get_total index hostname net :
  ∃ result index' net', Get index hostname net = Some (result, index', net').
Proof.
  destruct (rules index !! hostname) as [r|] eqn:Hc.
  - rewrite (Get_cached _ _ _ r Hc). eauto.
  - destruct (Get_uncached index hostname net Hc) as (r & err & _ & _ & ->).
    destruct err; eauto.
Qed.
End IndexFacts.



(** C7: when the request for robots.txt fails, [Get] returns the error and
    the index it was given, with no entry for the host, and a later [Get]
    for the host makes the request again; when [Get] returns without an
    error, a later [Get] for the host returns the same rules from the index
    it left and makes no request. *)
Theorem Get_failure_not_cached_success_cached `{StringsPkg}
  (index : RulesIndex) (hostname : string) (net : Network) :
  (∀ err, rules index !! hostname = None →
     client index net (robotsURL hostname) = TransportError err →
     Get index hostname net
     = Some ((zeroCrawlRules, Some err), index, net ++ [robotsURL hostname])
     ∧ ∀ later, ∃ result index',
         Get index hostname later
         = Some (result, index', later ++ [robotsURL hostname]))
  ∧ (∀ crawlRules index' net',
       Get index hostname net = Some ((crawlRules, None), index', net') →
       ∀ later, Get index' hostname later
                = Some ((crawlRules, None), index', later)).
Proof.
  split.
  - intros err Hnone Hreply. split.
    + unfold Get, fetchCrawlRules, client_Get. by rewrite Hnone, Hreply.
    + intros later.
      destruct (Get_uncached index hostname later Hnone)
        as (r & e & _ & _ & ->).
      destruct e; eauto.
  - intros crawlRules index' net' Hget later.
    destruct (rules index !! hostname) as [r|] eqn:Hc.
    + rewrite (Get_cached _ _ _ r Hc) in Hget. simplify_eq.
      by apply Get_cached.
    + destruct (Get_uncached index hostname net Hc) as (r & e & _ & _ & Hg).
      rewrite Hg in Hget. destruct e; simplify_eq.
      apply Get_cached. apply lookup_insert_eq.
Qed.

Lemma Get_failure_not_cached_success_cached_witness :
  let index := NewRulesIndex (flaky otherBotBody) in
  let url := "http://example.com/robots.txt" in
  let index' := {| client := client index;
                   rules := <["example.com" := newCrawlRules]> (rules index) |} in
  Get index "example.com" [] = Some ((zeroCrawlRules, Some "timeout"), index, [url])
  ∧ (∃ result index'', Get index "example.com" [url]
                       = Some (result, index'', [url] ++ [robotsURL "example.com"]))
  ∧ Get index "example.com" [url] = Some ((newCrawlRules, None), index', [url; url])
  ∧ Get index' "example.com" [url; url]
    = Some ((newCrawlRules, None), index', [url; url]).
Proof.
  intros index url index'.
  destruct (Get_failure_not_cached_success_cached index "example.com" [])
    as [Hfail _].
  destruct (Hfail "timeout" eq_refl eq_refl) as [Herr Hlater].
  assert (Hget : Get index "example.com" [url]
                 = Some ((newCrawlRules, None), index', [url; url]))
    by reflexivity.
  split; [exact Herr|]. split; [exact (Hlater [url])|]. split; [exact Hget|].
  exact (proj2 (Get_failure_not_cached_success_cached index "example.com" [url])
           newCrawlRules index' [url; url] Hget [url; url]).
Defined.




(** ** The manager *)

Section ManagerFacts.
Context `{StringsPkg} `{UrlPkg}.

Lemma vet_visited st toVet :
  hasKey (visited st) (URL_String (URL toVet)) = true → vet st toVet = Some st.
Proof. intros Hv. unfold vet. by rewrite Hv. Qed.

(** A URL that is not in [visited] is put there, [Get] is called for its
    host name, and the verdict follows. *)
Lemma vet_fresh st toVet m :
  visited st = Some m →
  m !! URL_String (URL toVet) = None →
  ∃ result index net,
    Get (rulesIndex st) (URL_Hostname (URL toVet)) (network st)
    = Some (result, index, net)
    ∧ vet st toVet
      = Some {| visited := Some (<[URL_String (URL toVet) := true]> m);
                rulesIndex := index; network := net;
                trace := (trace st ++ [CallGet (URL_Hostname (URL toVet))])
                         ++ [verdict toVet result] |}.
Proof.
  intros Hm Hfresh.
  destruct (Get_total (rulesIndex st) (URL_Hostname (URL toVet)) (network st))
    as ([rules err] & index & net & Hget).
  exists (rules, err), index, net. split; [done|].
  unfold vet, hasKey, store, verdict. rewrite Hm, Hfresh. simpl.
  rewrite Hget. simpl. destruct err; [done|].
  by destruct (negb (Test rules (Path (URL toVet)))).
Qed.

Lemma workersFor_app fullURL events1 events2 :
  workersFor fullURL (events1 ++ events2)
  = (workersFor fullURL events1 + workersFor fullURL events2)%nat.
Proof. unfold workersFor. by rewrite List.filter_app, length_app. Qed.

Lemma workersFor_verdict fullURL toVet result :
  (workersFor fullURL [verdict toVet result] ≤ 1)%nat
  ∧ (URL_String (URL toVet) ≠ fullURL →
     workersFor fullURL [verdict toVet result] = 0%nat).
Proof.
  unfold workersFor, verdict. destruct result as [rules [err|]]; simpl.
  { split; [lia|done]. }
  destruct (negb _); simpl; [split; [lia|done]|].
  destruct (String.eqb_spec (URL_String (URL toVet)) fullURL); simpl;
    split; try lia; done.
Qed.

Lemma vet_admitted st toVet :
  admitted st → ∃ st', vet st toVet = Some st' ∧ admitted st'.
Proof.
  intros [[m Hm] Hcount].
  destruct (hasKey (visited st) (URL_String (URL toVet))) eqn:Hv.
  { exists st. split; [by apply vet_visited|]. split; eauto. }
  assert (Hfresh : m !! URL_String (URL toVet) = None).
  { unfold hasKey in Hv. rewrite Hm in Hv. by destruct (m !! _). }
  destruct (vet_fresh st toVet m Hm Hfresh) as (result & index & net & _ & ->).
  eexists. split; [done|]. split; [by eexists|]. simpl. intros fullURL.
  specialize (Hcount fullURL). rewrite Hm in Hcount. simpl in Hcount.
  rewrite !workersFor_app.
  change (workersFor fullURL [CallGet _]) with 0%nat.
  destruct (workersFor_verdict fullURL toVet result) as [Hle Hne].
  destruct (decide (URL_String (URL toVet) = fullURL)) as [<-|Hneq].
  - rewrite lookup_insert_eq. rewrite Hfresh in Hcount. lia.
  - rewrite lookup_insert_ne by done. rewrite Hne by done.
    destruct (m !! fullURL); lia.
Qed.

Lemma vetBatch_admitted batch : ∀ st,
  admitted st → ∃ st', vetBatch st batch = Some st' ∧ admitted st'.
Proof.
  induction batch as [|toVet batch IH]; intros st Hst; [by exists st|].
  destruct (vet_admitted st toVet Hst) as (st1 & Hvet & Hst1).
  cbn [vetBatch]. rewrite Hvet. simpl. by apply IH.
Qed.

Lemma vetBatches_admitted batches : ∀ st,
  admitted st → ∃ st', vetBatches st batches = Some st' ∧ admitted st'.
Proof.
  induction batches as [|batch batches IH]; intros st Hst; [by exists st|].
  destruct (vetBatch_admitted batch st Hst) as (st1 & Hvet & Hst1).
  cbn [vetBatches]. rewrite Hvet. simpl. by apply IH.
Qed.

Lemma managerStart_admitted client net : admitted (managerStart client net).
Proof.
  split; [by eexists|]. intros fullURL. unfold workersFor. simpl.
  rewrite lookup_empty. simpl. lia.
Qed.

End ManagerFacts.

Section Admission.
Context `{StringsPkg} `{UrlPkg}.

(** Once [vet] has handled a website, its string form is in [visited]. *)
Lemma vet_marks_visited st toVet :
  is_Some (visited st) →
  ∃ st', vet st toVet = Some st'
         ∧ hasKey (visited st') (URL_String (URL toVet)) = true.
Proof.
  intros [m Hm].
  destruct (hasKey (visited st) (URL_String (URL toVet))) eqn:Hv.
  { exists st. split; [by apply vet_visited|done]. }
  assert (Hfresh : m !! URL_String (URL toVet) = None).
  { unfold hasKey in Hv. rewrite Hm in Hv. by destruct (m !! _). }
  destruct (vet_fresh st toVet m Hm Hfresh) as (result & index & net & _ & ->).
  eexists. split; [done|]. simpl. by rewrite lookup_insert_eq.
Qed.


End Admission.



(** Whatever the host name of a website not yet visited is, [vet] calls
    [Get] with it. *)
Lemma vet_calls_Get `{StringsPkg} `{UrlPkg} st toVet m :
  visited st = Some m →
  m !! URL_String (URL toVet) = None →
  ∃ st', vet st toVet = Some st'
         ∧ In (CallGet (URL_Hostname (URL toVet))) (trace st').
Proof.
  intros Hm Hfresh.
  destruct (vet_fresh st toVet m Hm Hfresh) as (result & index & net & _ & ->).
  eexists. split; [done|]. simpl. rewrite !in_app_iff. simpl. auto.
Qed.

(** C9, as the code has it: the manager does not look at the host name
    before it calls [Get].  For the zero website, whose host name is empty,
    it calls [Get] with the empty host name and the index requests
    [http:///robots.txt]; with a client that refuses such a request the URL
    is dropped after the error is printed, and with a client that answers
    404 a worker is started for it. *)
Theorem empty_hostname_reaches_Get :
  URL_Hostname (URL zeroWebsite) = ""
  ∧ trace <$> vet (managerStart refusingNoHost []) zeroWebsite
    = Some [CallGet ""; Println "http: no Host in request URL"]
  ∧ network <$> vet (managerStart refusingNoHost []) zeroWebsite
    = Some ["http:///robots.txt"]
  ∧ trace <$> vet (managerStart (always (Response 404 (ReadBody ""))) [])
                  zeroWebsite
    = Some [CallGet ""; StartWorker zeroWebsite (1 * Second)].
Proof. repeat split; by vm_compute. Qed.

(** ** The crawl worker *)

Section CrawlFacts.
Context `{UrlPkg}.

Lemma crawlLink_normalizeLink toCrawl urlsToVet link :
  crawlLink toCrawl urlsToVet link
  = urlsToVet ++ option_list (normalizeLink toCrawl link).
Proof.
  unfold crawlLink, normalizeLink.
  destruct (url_Parse link); simpl; [done|]. by rewrite app_nil_r.
Qed.

Lemma fold_crawlLink toCrawl allLinks : ∀ urlsToVet,
  fold_left (crawlLink toCrawl) allLinks urlsToVet
  = urlsToVet ++ normalizedLinks toCrawl allLinks.
Proof.
  unfold normalizedLinks.
  induction allLinks as [|link allLinks IH]; intros urlsToVet; simpl.
  - by rewrite app_nil_r.
  - rewrite IH, crawlLink_normalizeLink, <- app_assoc. f_equal.
    by destruct (normalizeLink toCrawl link).
Qed.
End CrawlFacts.

(** C3, as the code has it: the batch a worker sends is one zero website
    for each extracted link, followed by the normalized links in order: a
    link that does not parse is left out, an empty host name is replaced by
    the page's, an empty scheme by [http].  For the page
    [http://example.com/bar] with the links [/foo] and [:bad] the batch is
    two zero websites and [http://example.com/foo]. *)
Theorem crawl_batch_is_padded :
  (∀ (urls : UrlPkg) (toCrawl : website) (allLinks : list string),
     crawlLinks toCrawl allLinks
     = replicate (length allLinks) zeroWebsite ++ normalizedLinks toCrawl allLinks)
  ∧ crawl (serving "" twoLinksPage) examplePage []
    = (Crawled [zeroWebsite; zeroWebsite; fooLink] examplePage,
       ["http://example.com/bar"])
  ∧ normalizedLinks examplePage ["/foo"; ":bad"] = [fooLink]
  ∧ URL_String (URL fooLink) = "http://example.com/foo".
Proof.
  split; [|by vm_compute].
  intros urls toCrawl allLinks. apply fold_crawlLink.
Qed.


(** * Further properties of the code *)

(** ** The reader *)

Section ReaderFacts.
Context `{StringsPkg}.

Ltac split_line line :=
  unfold parseLine, namesThisAgent, lineCount, directiveOf in *;
  destruct (isBlankOrComment line); simplify_eq/=; eauto 10;
  destruct (SplitN2 ": " line) as [[c0 val]|]; simplify_eq/=; eauto 10.

Lemma parseLine_allow crawlRules line value allowed :
  directiveOf line = Some ("allow", value) →
  AllowedPaths crawlRules = Some allowed →
  parseLine (crawlRules, true) line
  = Some ({| DisallowedPaths := DisallowedPaths crawlRules;
             AllowedPaths := Some (<[TrimSpace value := true]> allowed);
             Delay := Delay crawlRules |}, true).
Proof.
  intros Hd Ha. split_line line.
  match goal with Hc : ToLower _ = _ |- _ => rewrite Hc end. simpl.
  by rewrite Ha.
Qed.

Lemma parseLine_disallow crawlRules line value disallowed :
  directiveOf line = Some ("disallow", value) →
  DisallowedPaths crawlRules = Some disallowed →
  parseLine (crawlRules, true) line
  = Some ({| DisallowedPaths := Some (<[TrimSpace value := true]> disallowed);
             AllowedPaths := AllowedPaths crawlRules;
             Delay := Delay crawlRules |}, true).
Proof.
  intros Hd Ha. split_line line.
  match goal with Hc : ToLower _ = _ |- _ => rewrite Hc end. simpl.
  by rewrite Ha.
Qed.

Lemma member_insert key key' (m : gmap string bool) :
  member key (Some (<[key' := true]> m)) ↔ key = key' ∨ member key (Some m).
Proof.
  unfold member. split.
  - intros (m' & [= <-] & Hk). destruct (decide (key' = key)) as [->|Hne].
    + by left.
    + right. rewrite lookup_insert_ne in Hk by done. eauto.
  - intros [->|(m' & [= <-] & Hk)]; eexists; (split; [done|]).
    + rewrite lookup_insert_eq. by eexists.
    + destruct (decide (key' = key)) as [->|Hne].
      * rewrite lookup_insert_eq. by eexists.
      * by rewrite lookup_insert_ne.
Qed.

(** What one line does to the two sets: each keeps the keys it has, and a
    new key is the trimmed value of an allow or disallow line. *)
Lemma parseLine_sets crawlRules respectRules line crawlRules' respectRules' key :
  parseLine (crawlRules, respectRules) line = Some (crawlRules', respectRules') →
  (member key (AllowedPaths crawlRules) → member key (AllowedPaths crawlRules'))
  ∧ (member key (DisallowedPaths crawlRules)
     → member key (DisallowedPaths crawlRules'))
  ∧ (member key (AllowedPaths crawlRules') →
     member key (AllowedPaths crawlRules)
     ∨ ∃ value, directiveOf line = Some ("allow", value) ∧ key = TrimSpace value)
  ∧ (member key (DisallowedPaths crawlRules') →
     member key (DisallowedPaths crawlRules)
     ∨ ∃ value, directiveOf line = Some ("disallow", value)
                ∧ key = TrimSpace value).
Proof.
  intros Hstep. split_line line.
  destruct ((ToLower c0 =? "user-agent")%string && _); [simplify_eq; tauto|].
  destruct (negb _); [simplify_eq; tauto|].
  destruct (String.eqb_spec (ToLower c0) "allow") as [Hdir|_].
  { destruct (AllowedPaths crawlRules) as [a|] eqn:Ha; [|done].
    simpl in Hstep. simplify_eq. simpl. rewrite member_insert, Hdir.
    split; [auto|]. split; [done|]. split; [|auto].
    intros [->|Hm]; eauto. }
  destruct (String.eqb_spec (ToLower c0) "disallow") as [Hdir|_].
  { destruct (DisallowedPaths crawlRules) as [d|] eqn:Hd; [|done].
    simpl in Hstep. simplify_eq. simpl. rewrite member_insert, Hdir.
    split; [done|]. split; [auto|]. split; [auto|].
    intros [->|Hm]; eauto. }
  destruct (ToLower c0 =? "crawl-delay")%string; [|simplify_eq; tauto].
  destruct (Atoi val); simplify_eq; simpl; tauto.
Qed.

Lemma parseLines_sets lines : ∀ st st' key,
  parseLines st lines = Some st' →
  (member key (AllowedPaths st.1) → member key (AllowedPaths st'.1))
  ∧ (member key (DisallowedPaths st.1) → member key (DisallowedPaths st'.1))
  ∧ (member key (AllowedPaths st'.1) →
     member key (AllowedPaths st.1)
     ∨ ∃ line value, In line lines ∧ directiveOf line = Some ("allow", value)
                     ∧ key = TrimSpace value)
  ∧ (member key (DisallowedPaths st'.1) →
     member key (DisallowedPaths st.1)
     ∨ ∃ line value, In line lines ∧ directiveOf line = Some ("disallow", value)
                     ∧ key = TrimSpace value).
Proof.
  induction lines as [|line lines IH]; intros st st' key Hrun.
  { simpl in Hrun. simplify_eq. tauto. }
  cbn [parseLines] in Hrun.
  destruct (parseLine st line) as [[r1 b1]|] eqn:Hstep; [|done].
  simpl in Hrun. destruct st as [r b].
  destruct (parseLine_sets r b line r1 b1 key Hstep) as (Ha & Hd & Ha' & Hd').
  destruct (IH (r1, b1) st' key Hrun) as (IHa & IHd & IHa' & IHd').
  simpl in *. split; [auto|]. split; [auto|]. split.
  - intros Hm. destruct (IHa' Hm) as [Hm1|(l & v & Hin & Hl & ->)].
    + destruct (Ha' Hm1) as [?|(v & Hl & ->)]; [by left|]. right. eauto 10.
    + right. eauto 10.
  - intros Hm. destruct (IHd' Hm) as [Hm1|(l & v & Hin & Hl & ->)].
    + destruct (Hd' Hm1) as [?|(v & Hl & ->)]; [by left|]. right. eauto 10.
    + right. eauto 10.
Qed.

Lemma not_member_empty key : ¬ member key (Some ∅).
Proof. intros (m & [= <-] & [v Hv]). by rewrite lookup_empty in Hv. Qed.
End ReaderFacts.

(** X1: the reader returns rules for every body, and every path in their
    allowed set is the trimmed value of an allow line of the body, every
    path in their disallowed set the trimmed value of a disallow line. *)
Theorem parseBody_paths_come_from_lines `{StringsPkg} (body : string) :
  ∃ crawlRules,
    parseBody body = Some crawlRules
    ∧ ∀ key,
        (member key (AllowedPaths crawlRules) →
         ∃ line value, In line (Split body)
                       ∧ directiveOf line = Some ("allow", value)
                       ∧ key = TrimSpace value)
        ∧ (member key (DisallowedPaths crawlRules) →
           ∃ line value, In line (Split body)
                         ∧ directiveOf line = Some ("disallow", value)
                         ∧ key = TrimSpace value).
Proof.
  destruct (parseBody_total body) as (r & Hr & _). exists r. split; [done|].
  intros key. unfold parseBody in Hr.
  destruct (parseLines (newCrawlRules, false) (Split body)) as [st'|] eqn:Hrun;
    [|done].
  simpl in Hr. simplify_eq.
  destruct (parseLines_sets _ _ _ key Hrun) as (_ & _ & Ha & Hd). simpl in *.
  split; intros Hm.
  - destruct (Ha Hm) as [Hno|?]; [|done]. by apply not_member_empty in Hno.
  - destruct (Hd Hm) as [Hno|?]; [|done]. by apply not_member_empty in Hno.
Qed.

Lemma parseBody_paths_come_from_lines_witness :
  ∃ line value, In line (Split mixedBody)
                ∧ directiveOf line = Some ("disallow", value)
                ∧ "/private" = TrimSpace value.
Proof.
  destruct (parseBody_paths_come_from_lines mixedBody) as (r & Hr & Hkeys).
  apply (proj2 (Hkeys "/private")). apply hasKey_member.
  assert (Hk : (λ r, hasKey (DisallowedPaths r) "/private") <$> parseBody mixedBody
               = Some true) by (by vm_compute).
  rewrite Hr in Hk. by simplify_eq/=.
Defined.

(** X2: reading further lines never takes a path out of either set: a path
    that is allowed or disallowed stays so whatever lines follow, so the
    blocks of a document that apply to the crawler add up. *)
Theorem parseLines_keep_paths `{StringsPkg} (lines : list string)
  (crawlRules : CrawlRules) (respectRules : bool) :
  allocated crawlRules →
  ∃ crawlRules' respectRules',
    parseLines (crawlRules, respectRules) lines = Some (crawlRules', respectRules')
    ∧ ∀ key,
        (member key (AllowedPaths crawlRules)
         → member key (AllowedPaths crawlRules'))
        ∧ (member key (DisallowedPaths crawlRules)
           → member key (DisallowedPaths crawlRules')).
Proof.
  intros Ha.
  destruct (parseLines_total lines crawlRules respectRules Ha)
    as (r & b & Hrun & _).
  exists r, b. split; [done|]. intros key.
  destruct (parseLines_sets _ _ _ key Hrun) as (Hal & Hdis & _). by split.
Qed.

Lemma parseLines_keep_paths_witness :
  ∃ crawlRules' respectRules',
    parseLines (sampleRules, true) (Split mixedBody)
    = Some (crawlRules', respectRules')
    ∧ member "/a" (AllowedPaths crawlRules')
    ∧ member "/b" (DisallowedPaths crawlRules').
Proof.
  destruct (parseLines_keep_paths (Split mixedBody) sampleRules true)
    as (r & b & Hrun & Hkeys).
  { split; by eexists. }
  exists r, b. split; [done|]. split.
  - apply (proj1 (Hkeys "/a")). apply hasKey_member. reflexivity.
  - apply (proj2 (Hkeys "/b")). apply hasKey_member. reflexivity.
Defined.

(** X3: a user-agent line leaves the rules as they are and sets the flag,
    whatever it was, to whether the value is [*] or, case folded,
    [grawler]. *)
Theorem user_agent_line_sets_flag `{StringsPkg} (crawlRules : CrawlRules)
  (respectRules : bool) (line value : string) :
  directiveOf line = Some ("user-agent", value) →
  parseLine (crawlRules, respectRules) line
  = Some (crawlRules, ((value =? "*") || (ToLower value =? "grawler"))%string).
Proof.
  intros Hd. unfold parseLine, directiveOf in *.
  destruct (isBlankOrComment line); [done|].
  destruct (SplitN2 ": " line) as [[c0 val]|]; [|done].
  simplify_eq/=.
  match goal with Hc : ToLower _ = _ |- _ => rewrite Hc end. simpl.
  by destruct ((value =? "*")%string || _).
Qed.

Lemma user_agent_line_sets_flag_witness :
  parseLine (sampleRules, true) "User-Agent: Googlebot" = Some (sampleRules, false)
  ∧ parseLine (sampleRules, false) "user-agent: GRAWLER" = Some (sampleRules, true).
Proof.
  split.
  - exact (user_agent_line_sets_flag sampleRules true "User-Agent: Googlebot"
             "Googlebot" eq_refl).
  - exact (user_agent_line_sets_flag sampleRules false "user-agent: GRAWLER"
             "GRAWLER" eq_refl).
Defined.

Lemma Test_allowed rules path :
  member path (AllowedPaths rules) → Test rules path = true.
Proof. intros Ha%hasKey_member. unfold Test. by rewrite Ha. Qed.

Lemma Test_disallowed_only rules path :
  ¬ member path (AllowedPaths rules) →
  member path (DisallowedPaths rules) → Test rules path = false.
Proof.
  intros Ha%hasKey_not_member Hd%hasKey_member. unfold Test. by rewrite Ha, Hd.
Qed.

(** X4: an allow line read with the flag up makes [Test] true for its
    trimmed value in the rules the reader ends with, whatever the lines
    after it say. *)
Theorem allow_line_permits `{StringsPkg} (crawlRules : CrawlRules)
  (line value : string) (rest : list string) :
  allocated crawlRules →
  directiveOf line = Some ("allow", value) →
  ∃ crawlRules' respectRules',
    parseLines (crawlRules, true) (line :: rest) = Some (crawlRules', respectRules')
    ∧ Test crawlRules' (TrimSpace value) = true.
Proof.
  intros [Hd [a Ha]] Hline.
  pose proof (parseLine_allow crawlRules line value a Hline Ha) as Hstep.
  cbn [parseLines]. rewrite Hstep. simpl.
  match goal with |- context [parseLines (?r, true) rest] =>
    destruct (parseLines_total rest r true) as (r' & b' & Hrun & _);
    [split; [done | by eexists]|];
    destruct (parseLines_sets _ _ _ (TrimSpace value) Hrun) as (Hkeep & _)
  end.
  exists r', b'. split; [done|].
  apply Test_allowed. apply Hkeep. simpl.
  apply member_insert. by left.
Qed.

Lemma allow_line_permits_witness :
  ∃ crawlRules' respectRules',
    parseLines (sampleRules, true) ["Allow:  /b "; "disallow: /b"]
    = Some (crawlRules', respectRules')
    ∧ Test crawlRules' "/b" = true.
Proof.
  assert (Ha : allocated sampleRules) by (split; by eexists).
  exact (allow_line_permits sampleRules "Allow:  /b " " /b " ["disallow: /b"]
           Ha eq_refl).
Defined.

(** X5: a disallow line read with the flag up makes [Test] false for its
    trimmed value in the rules the reader ends with, provided the path was
    not allowed before and no allow line after it names the same path. *)
Theorem disallow_line_denies `{StringsPkg} (crawlRules : CrawlRules)
  (line value : string) (rest : list string) :
  allocated crawlRules →
  directiveOf line = Some ("disallow", value) →
  ¬ member (TrimSpace value) (AllowedPaths crawlRules) →
  (∀ later allowed, In later rest →
     directiveOf later = Some ("allow", allowed) →
     TrimSpace allowed ≠ TrimSpace value) →
  ∃ crawlRules' respectRules',
    parseLines (crawlRules, true) (line :: rest) = Some (crawlRules', respectRules')
    ∧ Test crawlRules' (TrimSpace value) = false.
Proof.
  intros [[d Hd] Ha] Hline Hfree Hlater.
  pose proof (parseLine_disallow crawlRules line value d Hline Hd) as Hstep.
  cbn [parseLines]. rewrite Hstep. simpl.
  match goal with |- context [parseLines (?r, true) rest] =>
    destruct (parseLines_total rest r true) as (r' & b' & Hrun & _);
    [split; [by eexists | done]|];
    destruct (parseLines_sets _ _ _ (TrimSpace value) Hrun)
      as (_ & Hkeep & Hnew & _)
  end.
  exists r', b'. split; [done|]. simpl in *.
  apply Test_disallowed_only.
  - intros Hm. destruct (Hnew Hm) as [?|(l & v & Hin & Hl & Heq)]; [done|].
    by eapply Hlater.
  - apply Hkeep, member_insert. by left.
Qed.

Lemma disallow_line_denies_witness :
  ∃ crawlRules' respectRules',
    parseLines (newCrawlRules, true) ["Disallow: /x"; "allow: /y"]
    = Some (crawlRules', respectRules')
    ∧ Test crawlRules' "/x" = false.
Proof.
  assert (Ha : allocated newCrawlRules) by (split; by eexists).
  assert (Hlater : ∀ later allowed, In later ["allow: /y"] →
            directiveOf later = Some ("allow", allowed) →
            TrimSpace allowed ≠ TrimSpace "/x").
  { intros later allowed [<-|[]] Hl. vm_compute in Hl. by simplify_eq. }
  exact (disallow_line_denies newCrawlRules "Disallow: /x" "/x" ["allow: /y"]
           Ha eq_refl (not_member_empty _) Hlater).
Defined.

(** ** Fetching and keeping the rules *)

(** X6: a fetch makes exactly one request, for [http://<domain>/robots.txt].
    It returns an error exactly when the request fails or when the status is
    from 200 to 399 and reading the body fails, and then the rules are those
    of [newCrawlRules]; with such a status and a body read, the rules are
    those the reader makes of the body. *)
Theorem fetchCrawlRules_errors `{StringsPkg} (client : Client)
  (domain : string) (net : Network) :
  let url := "http://" +:+ domain +:+ "/robots.txt" in
  ∃ crawlRules err,
    fetchCrawlRules client domain net = Some ((crawlRules, err), net ++ [url])
    ∧ (is_Some err → crawlRules = newCrawlRules)
    ∧ (is_Some err ↔
       (∃ e, client net url = TransportError e)
       ∨ (∃ status e, client net url = Response status (ReadError e)
                      ∧ 200 ≤ status ≤ 399))
    ∧ (∀ status body, client net url = Response status (ReadBody body) →
         200 ≤ status ≤ 399 → parseBody body = Some crawlRules).
Proof.
  intros url. unfold fetchCrawlRules, client_Get, robotsURL. fold url.
  destruct (client net url) as [e|status [e|body]] eqn:Hreply.
  - exists newCrawlRules, (Some e). split; [done|]. split; [done|]. split; [|done].
    split; [eauto | by eexists].
  - destruct (Z.ltb_spec 399 status), (Z.ltb_spec status 200); simpl;
      try (exists newCrawlRules, None; split; [done|]; split; [by intros []|];
           split; [|intros; simplify_eq];
           split; [by intros [] | intros [(? & ?)|(? & ? & ? & ?)]; simplify_eq; lia]).
    exists newCrawlRules, (Some e). split; [done|]. split; [done|]. split; [|done].
    split; [|by eexists]. intros _. right. exists status, e. split; [done|lia].
  - destruct (Z.ltb_spec 399 status), (Z.ltb_spec status 200); simpl;
      try (exists newCrawlRules, None; split; [done|]; split; [by intros []|];
           split; [|intros; simplify_eq; lia];
           split; [by intros [] | intros [(? & ?)|(? & ? & ? & ?)]; simplify_eq]).
    destruct (parseBody_total body) as (r & Hr & _). rewrite Hr. simpl.
    exists r, None. split; [done|]. split; [by intros []|]. split.
    + split; [by intros [] | intros [(? & ?)|(? & ? & ? & ?)]; simplify_eq].
    + intros ? ? ? ?. by simplify_eq.
Qed.

Lemma fetchCrawlRules_errors_witness :
  parseBody otherBotBody = Some newCrawlRules.
Proof.
  destruct (fetchCrawlRules_errors (serving otherBotBody "") "example.com" [])
    as (r & err & Hfetch & _ & _ & Hbody).
  assert (Hr : fst ∘ fst <$> fetchCrawlRules (serving otherBotBody "") "example.com" []
               = Some newCrawlRules) by reflexivity.
  rewrite Hfetch in Hr. simplify_eq/=.
  apply (Hbody 200 otherBotBody); [reflexivity | lia].
Defined.

(** What [Get] does to the index and the network. *)
Lemma Get_effect `{StringsPkg} index hostname net :
  ∃ crawlRules err index' net',
    Get index hostname net = Some ((crawlRules, err), index', net')
    ∧ client index' = client index
    ∧ (∀ host, host ≠ hostname → rules index' !! host = rules index !! host)
    ∧ (∀ cached, rules index !! hostname = Some cached →
         index' = index ∧ net' = net ∧ err = None ∧ crawlRules = cached)
    ∧ (rules index !! hostname = None →
       net' = net ++ [robotsURL hostname]
       ∧ match err with
         | Some _ => index' = index
         | None => rules index' = <[hostname := crawlRules]> (rules index)
         end).
Proof.
  destruct (rules index !! hostname) as [cached|] eqn:Hc.
  - exists cached, None, index, net. rewrite (Get_cached _ _ _ cached Hc).
    split; [done|]. split; [done|]. split; [done|]. split; [|done].
    by intros ? [= <-].
  - destruct (Get_uncached index hostname net Hc) as (r & err & _ & _ & Hget).
    destruct err as [e|].
    + exists zeroCrawlRules, (Some e), index, (net ++ [robotsURL hostname]).
      rewrite Hget. by repeat split.
    + eexists r, None, _, (net ++ [robotsURL hostname]). rewrite Hget.
      split; [done|]. split; [done|]. split; [|done].
      intros host Hne. simpl. by rewrite lookup_insert_ne.
Qed.

(** X7: [Get] returns for every index, host and client.  It never changes
    or removes the rules of another host and never replaces rules it holds,
    so the domain count stays or grows by one; it makes no request or the
    one for the host's robots.txt; and the rules it returns without an error
    are the ones the index holds for the host afterwards. *)
Theorem Get_only_adds_the_host `{StringsPkg} (index : RulesIndex)
  (hostname : string) (net : Network) :
  ∃ crawlRules err index' net',
    Get index hostname net = Some ((crawlRules, err), index', net')
    ∧ (∀ host cached, rules index !! host = Some cached →
         rules index' !! host = Some cached)
    ∧ (∀ host, host ≠ hostname → rules index' !! host = rules index !! host)
    ∧ (DomainCount index ≤ DomainCount index' ≤ S (DomainCount index))%nat
    ∧ (net' = net ∨ net' = net ++ ["http://" +:+ hostname +:+ "/robots.txt"])
    ∧ (err = None → rules index' !! hostname = Some crawlRules).
Proof.
  destruct (Get_effect index hostname net)
    as (r & err & index' & net' & Hget & _ & Hother & Hcached & Hfresh).
  exists r, err, index', net'. split; [done|].
  destruct (rules index !! hostname) as [cached|] eqn:Hc.
  - destruct (Hcached cached eq_refl) as (-> & -> & -> & ->).
    split; [done|]. split; [done|]. split; [lia|]. split; [by left|done].
  - destruct (Hfresh eq_refl) as [-> Hnew]. unfold DomainCount.
    destruct err as [e|].
    { subst index'. split; [done|]. split; [done|]. split; [lia|].
      split; [by right|done]. }
    rewrite Hnew. split.
    { intros host cached Hh. destruct (decide (host = hostname)) as [->|Hne];
        [congruence | by rewrite lookup_insert_ne]. }
    split; [by rewrite <- Hnew|].
    rewrite map_size_insert_None by done.
    split; [lia|]. split; [by right|]. intros _. apply lookup_insert_eq.
Qed.

Lemma Get_only_adds_the_host_witness :
  ∃ crawlRules index',
    rules index' !! "example.com" = Some crawlRules
    ∧ (DomainCount index' ≤ 1)%nat.
Proof.
  pose (index := NewRulesIndex (always (Response 404 (ReadBody "")))).
  destruct (Get_only_adds_the_host index "example.com" [])
    as (r & err & index' & net' & Hget & _ & _ & Hcount & _ & Hok).
  assert (Herr : snd ∘ fst ∘ fst <$> Get index "example.com" [] = Some None)
    by reflexivity.
  rewrite Hget in Herr. simplify_eq/=.
  exists r, index'. split; [by apply Hok|].
  change (DomainCount index) with 0%nat in Hcount. lia.
Defined.

Lemma Get_facts `{StringsPkg} index hostname net crawlRules err index' net' :
  Get index hostname net = Some ((crawlRules, err), index', net') →
  (∀ host cached, rules index !! host = Some cached →
     rules index' !! host = Some cached)
  ∧ (err = None → rules index' !! hostname = Some crawlRules)
  ∧ ∃ requested,
      net' = net ++ requested
      ∧ (requested = [] ∨ requested = [robotsURL hostname])
      ∧ (size (rules index') ≤ size (rules index) + length requested)%nat.
Proof.
  intros Hget.
  destruct (Get_effect index hostname net)
    as (r & e & i & n & Hget' & _ & Hother & Hcached & Hfresh).
  rewrite Hget in Hget'. simplify_eq.
  destruct (rules index !! hostname) as [cached|] eqn:Hc.
  - destruct (Hcached cached eq_refl) as (-> & -> & -> & ->).
    split; [done|]. split; [done|]. exists []. rewrite app_nil_r.
    split; [done|]. split; [by left|simpl; lia].
  - destruct (Hfresh eq_refl) as [-> Hnew].
    destruct e as [e|].
    { subst i. split; [done|]. split; [done|]. eexists. split; [done|].
      split; [by right|simpl; lia]. }
    split.
    { intros host cached Hh. rewrite Hnew.
      destruct (decide (host = hostname)) as [->|Hne];
        [congruence | by rewrite lookup_insert_ne]. }
    split; [intros _; rewrite Hnew; apply lookup_insert_eq|].
    eexists. split; [done|]. split; [by right|].
    rewrite Hnew, map_size_insert_None by done. simpl. lia.
Qed.

(** ** The manager, over a whole run *)

Section RunFacts.
Context `{StringsPkg} `{UrlPkg}.

Lemma vet_cases st toVet :
  is_Some (visited st) →
  (hasKey (visited st) (URL_String (URL toVet)) = true ∧ vet st toVet = Some st)
  ∨ ∃ m crawlRules err index net,
      visited st = Some m
      ∧ m !! URL_String (URL toVet) = None
      ∧ Get (rulesIndex st) (URL_Hostname (URL toVet)) (network st)
        = Some ((crawlRules, err), index, net)
      ∧ vet st toVet
        = Some {| visited := Some (<[URL_String (URL toVet) := true]> m);
                  rulesIndex := index; network := net;
                  trace := (trace st ++ [CallGet (URL_Hostname (URL toVet))])
                           ++ [verdict toVet (crawlRules, err)] |}.
Proof.
  intros [m Hm].
  destruct (hasKey (visited st) (URL_String (URL toVet))) eqn:Hv.
  { left. split; [done|]. by apply vet_visited. }
  right.
  assert (Hfresh : m !! URL_String (URL toVet) = None).
  { unfold hasKey in Hv. rewrite Hm in Hv. by destruct (m !! _). }
  destruct (vet_fresh st toVet m Hm Hfresh)
    as ([r err] & index & net & Hget & Hvet).
  exists m, r, err, index, net. by repeat split.
Qed.

(** A property of the state that every [vet] keeps holds after a run. *)
Lemma vetBatch_preserves (P : ManagerState → Prop) :
  (∀ st toVet st',
     is_Some (visited st) → P st → vet st toVet = Some st' → P st') →
  ∀ batch st,
    is_Some (visited st) → P st →
    ∃ st', vetBatch st batch = Some st' ∧ is_Some (visited st') ∧ P st'.
Proof.
  intros Hstep. induction batch as [|toVet batch IH]; intros st Hm HP.
  { exists st. by repeat split. }
  assert (∃ st1, vet st toVet = Some st1 ∧ is_Some (visited st1))
    as (st1 & Hvet & Hm1).
  { destruct (vet_cases st toVet Hm)
      as [[_ Hvet]|(m & r & e & i & n & _ & _ & _ & Hvet)].
    - by exists st.
    - eexists. split; [exact Hvet|]. simpl. by eexists. }
  cbn [vetBatch]. rewrite Hvet. simpl. apply IH; [done|].
  exact (Hstep st toVet st1 Hm HP Hvet).
Qed.

Lemma vetBatches_preserves (P : ManagerState → Prop) :
  (∀ st toVet st',
     is_Some (visited st) → P st → vet st toVet = Some st' → P st') →
  ∀ batches st,
    is_Some (visited st) → P st →
    ∃ st', vetBatches st batches = Some st' ∧ is_Some (visited st') ∧ P st'.
Proof.
  intros Hstep. induction batches as [|batch batches IH]; intros st Hm HP.
  { exists st. by repeat split. }
  destruct (vetBatch_preserves P Hstep batch st Hm HP) as (st1 & Hrun & Hm1 & HP1).
  cbn [vetBatches]. rewrite Hrun. simpl. by apply IH.
Qed.

Lemma hasKey_insert (m : gmap string bool) key key' :
  hasKey (Some (<[key := true]> m)) key'
  = if decide (key = key') then true else hasKey (Some m) key'.
Proof.
  unfold hasKey. destruct (decide (key = key')) as [->|Hne].
  - by rewrite lookup_insert_eq.
  - by rewrite lookup_insert_ne.
Qed.

Lemma vet_keeps_visited st toVet st' key :
  is_Some (visited st) →
  vet st toVet = Some st' →
  hasKey (visited st) key = true → hasKey (visited st') key = true.
Proof.
  intros Hm Hvet Hkey.
  destruct (vet_cases st toVet Hm)
    as [[_ Hsame]|(m & r & e & i & n & Hv & _ & _ & Hnew)].
  - rewrite Hsame in Hvet. by simplify_eq.
  - rewrite Hnew in Hvet. injection Hvet as <-. cbn [visited].
    rewrite hasKey_insert. case_decide; [done|]. by rewrite <- Hv.
Qed.
End RunFacts.

Section RunInvariants.
Context `{StringsPkg} `{UrlPkg}.

Lemma vet_keeps_permitted st toVet st' :
  is_Some (visited st) →
  (∀ toCrawl delay, In (StartWorker toCrawl delay) (trace st) →
     ∃ crawlRules,
       rules (rulesIndex st) !! URL_Hostname (URL toCrawl) = Some crawlRules
       ∧ Test crawlRules (Path (URL toCrawl)) = true
       ∧ delay = Delay crawlRules
       ∧ hasKey (visited st) (URL_String (URL toCrawl)) = true) →
  vet st toVet = Some st' →
  ∀ toCrawl delay, In (StartWorker toCrawl delay) (trace st') →
    ∃ crawlRules,
      rules (rulesIndex st') !! URL_Hostname (URL toCrawl) = Some crawlRules
      ∧ Test crawlRules (Path (URL toCrawl)) = true
      ∧ delay = Delay crawlRules
      ∧ hasKey (visited st') (URL_String (URL toCrawl)) = true.
Proof.
  intros Hm Hold Hvet toCrawl delay Hin.
  destruct (vet_cases st toVet Hm)
    as [[_ Hsame]|(m & r & e & i & n & Hv & Hfresh & Hget & Hnew)].
  { rewrite Hsame in Hvet. simplify_eq. by apply Hold. }
  rewrite Hnew in Hvet. injection Hvet as <-.
  destruct (Get_facts _ _ _ _ _ _ _ Hget) as (Hkeep & Hstored & _).
  cbn [trace rulesIndex visited] in *.
  rewrite !in_app_iff in Hin. destruct Hin as [[Hin|Hin]|Hin].
  - destruct (Hold toCrawl delay Hin) as (r0 & Hr0 & Ht & Hd & Hk).
    exists r0. split; [by apply Hkeep|]. split; [done|]. split; [done|].
    rewrite hasKey_insert. case_decide; [done|]. by rewrite <- Hv.
  - by destruct Hin as [?|[]].
  - destruct Hin as [Hin|[]]. unfold verdict in Hin.
    destruct e as [e|]; [done|].
    destruct (Test r (Path (URL toVet))) eqn:Ht; simpl in Hin; [|done].
    simplify_eq. exists r. split; [by apply Hstored|].
    split; [done|]. split; [done|]. rewrite hasKey_insert. by case_decide.
Qed.

Lemma vet_keeps_requests net0 st toVet st' :
  is_Some (visited st) →
  (∃ requested,
     network st = net0 ++ requested
     ∧ (DomainCount (rulesIndex st) ≤ length requested ≤ len (visited st))%nat
     ∧ ∀ url, In url requested →
         ∃ toCrawl, hasKey (visited st) (URL_String (URL toCrawl)) = true
                    ∧ url = robotsURL (URL_Hostname (URL toCrawl))) →
  vet st toVet = Some st' →
  ∃ requested,
    network st' = net0 ++ requested
    ∧ (DomainCount (rulesIndex st') ≤ length requested ≤ len (visited st'))%nat
    ∧ ∀ url, In url requested →
        ∃ toCrawl, hasKey (visited st') (URL_String (URL toCrawl)) = true
                   ∧ url = robotsURL (URL_Hostname (URL toCrawl)).
Proof.
  intros Hm (requested & Hnet & Hcount & Hurls) Hvet.
  destruct (vet_cases st toVet Hm)
    as [[_ Hsame]|(m & r & e & i & n & Hv & Hfresh & Hget & Hnew)].
  { rewrite Hsame in Hvet. simplify_eq. eauto. }
  rewrite Hnew in Hvet. injection Hvet as <-.
  destruct (Get_facts _ _ _ _ _ _ _ Hget)
    as (_ & _ & new & -> & Hone & Hsize).
  cbn [network rulesIndex visited].
  exists (requested ++ new). rewrite Hnet, app_assoc. split; [done|].
  rewrite Hv in Hcount. unfold DomainCount, len in *.
  rewrite length_app, map_size_insert_None by done.
  split; [destruct Hone as [->| ->]; simpl in *; lia|].
  intros url [Hin|Hin]%in_app_iff.
  - destruct (Hurls url Hin) as (w & Hw & ->). exists w. split; [|done].
    rewrite hasKey_insert. case_decide; [done|]. by rewrite <- Hv.
  - destruct Hone as [->| ->]; [done|]. destruct Hin as [<-|[]].
    exists toVet. split; [|done]. rewrite hasKey_insert. by case_decide.
Qed.

Lemma vetBatch_marks batch : ∀ st st',
  is_Some (visited st) →
  vetBatch st batch = Some st' →
  is_Some (visited st')
  ∧ (∀ key, hasKey (visited st) key = true → hasKey (visited st') key = true)
  ∧ ∀ toVet, In toVet batch → hasKey (visited st') (URL_String (URL toVet)) = true.
Proof.
  induction batch as [|toVet batch IH]; intros st st' Hm Hrun.
  { simpl in Hrun. simplify_eq. split; [done|]. split; [done|]. by intros ? []. }
  cbn [vetBatch] in Hrun.
  destruct (vet_marks_visited st toVet Hm) as (st1 & Hvet & Hmark).
  rewrite Hvet in Hrun. simpl in Hrun.
  assert (Hm1 : is_Some (visited st1)).
  { destruct (visited st1); [by eexists | done]. }
  destruct (IH st1 st' Hm1 Hrun) as (Hm' & Hgrow & Hall).
  split; [done|]. split.
  - intros key Hk. apply Hgrow.
    exact (vet_keeps_visited st toVet st1 key Hm Hvet Hk).
  - intros w [<-|Hin]; [by apply Hgrow | by apply Hall].
Qed.

Lemma vetBatches_marks batches : ∀ st st',
  is_Some (visited st) →
  vetBatches st batches = Some st' →
  (∀ key, hasKey (visited st) key = true → hasKey (visited st') key = true)
  ∧ ∀ batch toVet, In batch batches → In toVet batch →
      hasKey (visited st') (URL_String (URL toVet)) = true.
Proof.
  induction batches as [|batch batches IH]; intros st st' Hm Hrun.
  { simpl in Hrun. simplify_eq. split; [done|]. by intros ? ? []. }
  cbn [vetBatches] in Hrun.
  destruct (vetBatch st batch) as [st1|] eqn:Hbatch; [|done]. simpl in Hrun.
  destruct (vetBatch_marks batch st st1 Hm Hbatch) as (Hm1 & Hgrow1 & Hall1).
  destruct (IH st1 st' Hm1 Hrun) as (Hgrow & Hall).
  split; [by auto|].
  intros b w [<-|Hin] Hw; [by apply Hgrow, Hall1 | by eapply Hall].
Qed.
End RunInvariants.

(** X8: in every run of the manager, each worker it starts is for a URL
    that is in [visited], whose host has rules in the index, rules for
    which [Test] is true on the URL's path and whose delay is the one the
    worker waits. *)
Theorem manager_workers_permitted `{StringsPkg} `{UrlPkg} (client : Client)
  (initialURL : url_URL) (received : list (list website)) (net : Network) :
  ∃ st,
    manager client initialURL received net = Some st
    ∧ ∀ toCrawl delay, In (StartWorker toCrawl delay) (trace st) →
        ∃ crawlRules,
          rules (rulesIndex st) !! URL_Hostname (URL toCrawl) = Some crawlRules
          ∧ Test crawlRules (Path (URL toCrawl)) = true
          ∧ delay = Delay crawlRules
          ∧ hasKey (visited st) (URL_String (URL toCrawl)) = true.
Proof.
  unfold manager.
  destruct (vetBatches_preserves _ vet_keeps_permitted
              ([{| referrer := zeroURL; URL := initialURL |}] :: received)
              (managerStart client net)) as (st & Hrun & _ & HP).
  - by eexists.
  - by intros ? ? [].
  - by exists st.
Qed.

(** X9: in every run of the manager, the seed and every website of every
    batch received end up in [visited], whether a worker was started for
    them, the rules turned them away or the rules could not be fetched. *)
Theorem manager_visits_all_submitted `{StringsPkg} `{UrlPkg} (client : Client)
  (initialURL : url_URL) (received : list (list website)) (net : Network) :
  ∃ st,
    manager client initialURL received net = Some st
    ∧ hasKey (visited st) (URL_String initialURL) = true
    ∧ ∀ batch toVet, In batch received → In toVet batch →
        hasKey (visited st) (URL_String (URL toVet)) = true.
Proof.
  unfold manager.
  destruct (vetBatches_preserves (λ _, True) (λ _ _ _ _ _ _, I)
              ([{| referrer := zeroURL; URL := initialURL |}] :: received)
              (managerStart client net)) as (st & Hrun & _ & _);
    [by eexists | done |].
  exists st. split; [done|].
  assert (Hm : is_Some (visited (managerStart client net))) by (by eexists).
  destruct (vetBatches_marks _ _ _ Hm Hrun) as [_ Hall].
  split.
  - apply (Hall [{| referrer := zeroURL; URL := initialURL |}]
                {| referrer := zeroURL; URL := initialURL |}); by left.
  - intros batch toVet Hb Hw. apply (Hall batch toVet); [by right | done].
Qed.

Lemma manager_requests_invariant `{StringsPkg} `{UrlPkg} client initialURL
  received net :
  ∃ st requested,
    manager client initialURL received net = Some st
    ∧ network st = net ++ requested
    ∧ (DomainCount (rulesIndex st) ≤ length requested ≤ len (visited st))%nat
    ∧ ∀ url, In url requested →
        ∃ toCrawl, hasKey (visited st) (URL_String (URL toCrawl)) = true
                   ∧ url = robotsURL (URL_Hostname (URL toCrawl)).
Proof.
  unfold manager.
  destruct (vetBatches_preserves _ (vet_keeps_requests net)
              ([{| referrer := zeroURL; URL := initialURL |}] :: received)
              (managerStart client net))
    as (st & Hrun & _ & requested & Hnet & Hcount & Hurls).
  - by eexists.
  - exists []. simpl. rewrite app_nil_r. split; [done|]. split; [|by intros ? []].
    unfold DomainCount. simpl. rewrite map_size_empty. lia.
  - by exists st, requested.
Qed.

(** X10: in every run of the manager, the number of domains in the index is
    at most the number of requests the manager made, which is at most the
    number of URLs in [visited]: the two counts the command prints at the
    end are ordered. *)
Theorem manager_domains_at_most_urls `{StringsPkg} `{UrlPkg} (client : Client)
  (initialURL : url_URL) (received : list (list website)) (net : Network) :
  ∃ st requested,
    manager client initialURL received net = Some st
    ∧ network st = net ++ requested
    ∧ (DomainCount (rulesIndex st) ≤ length requested)%nat
    ∧ (length requested ≤ len (visited st))%nat.
Proof.
  destruct (manager_requests_invariant client initialURL received net)
    as (st & requested & Hrun & Hnet & Hcount & _).
  exists st, requested. repeat split; try done; lia.
Qed.

(** X11: the manager requests nothing but robots.txt files: every request
    it makes in a run is for [http://<host>/robots.txt] with the host name
    of a URL that is in [visited]. *)
Theorem manager_requests_only_robots `{StringsPkg} `{UrlPkg} (client : Client)
  (initialURL : url_URL) (received : list (list website)) (net : Network) :
  ∃ st requested,
    manager client initialURL received net = Some st
    ∧ network st = net ++ requested
    ∧ ∀ url, In url requested →
        ∃ toCrawl,
          hasKey (visited st) (URL_String (URL toCrawl)) = true
          ∧ url = "http://" +:+ URL_Hostname (URL toCrawl) +:+ "/robots.txt".
Proof.
  destruct (manager_requests_invariant client initialURL received net)
    as (st & requested & Hrun & Hnet & _ & Hurls).
  by exists st, requested.
Qed.

Lemma manager_workers_permitted_witness :
  ∃ st crawlRules,
    manager (serving politeBody "") (URL examplePage) [] [] = Some st
    ∧ rules (rulesIndex st) !! "example.com" = Some crawlRules
    ∧ Test crawlRules "/bar" = true
    ∧ 7 * Second = Delay crawlRules.
Proof.
  destruct (manager_workers_permitted (serving politeBody "") (URL examplePage)
              [] []) as (st & Hrun & Hperm).
  assert (Htrace : trace <$> manager (serving politeBody "") (URL examplePage) [] []
                   = Some [CallGet "example.com";
                           StartWorker examplePage (7 * Second)])
    by reflexivity.
  rewrite Hrun in Htrace. simpl in Htrace. injection Htrace as Htrace.
  destruct (Hperm examplePage (7 * Second)) as (r & Hr & Ht & Hd & _).
  { rewrite Htrace. right. by left. }
  by exists st, r.
Defined.

Lemma manager_visits_all_submitted_witness :
  ∃ st,
    manager (serving mixedBody "") (URL examplePage) [[privatePage; fooLink]] []
    = Some st
    ∧ hasKey (visited st) "https://example.com/private" = true.
Proof.
  destruct (manager_visits_all_submitted (serving mixedBody "") (URL examplePage)
              [[privatePage; fooLink]] []) as (st & Hrun & _ & Hall).
  exists st. split; [done|].
  apply (Hall [privatePage; fooLink] privatePage); by left.
Defined.

Lemma manager_requests_only_robots_witness :
  ∃ toCrawl,
    "http://example.com/robots.txt"
    = "http://" +:+ URL_Hostname (URL toCrawl) +:+ "/robots.txt".
Proof.
  destruct (manager_requests_only_robots (serving mixedBody "") (URL examplePage)
              [[privatePage; fooLink]] []) as (st & requested & Hrun & Hnet & Hurls).
  assert (Hn : network <$> manager (serving mixedBody "") (URL examplePage)
                             [[privatePage; fooLink]] []
               = Some ["http://example.com/robots.txt"]) by reflexivity.
  rewrite Hrun in Hn. simpl in Hn. injection Hn as Hn.
  rewrite Hnet in Hn. simpl in Hn.
  destruct (Hurls "http://example.com/robots.txt") as (toCrawl & _ & Hurl).
  { rewrite Hn. by left. }
  by exists toCrawl.
Defined.

(** ** Workers and the batches they send *)

Section BatchFacts.
Context `{UrlPkg}.

Lemma normalizeLink_shape toCrawl link toVet :
  normalizeLink toCrawl link = Some toVet →
  referrer toVet = URL toCrawl ∧ Scheme (URL toVet) ≠ "".
Proof.
  unfold normalizeLink. destruct (url_Parse link) as [u|]; [|done].
  intros [= <-]. split; [done|]. simpl.
  match goal with |- context [(Scheme ?h =? "")%string] =>
    destruct (String.eqb_spec (Scheme h) "") end; done.
Qed.

Lemma length_normalizedLinks toCrawl allLinks :
  (length (normalizedLinks toCrawl allLinks) ≤ length allLinks)%nat.
Proof.
  unfold normalizedLinks. induction allLinks as [|link allLinks IH]; [done|].
  change (link :: allLinks) with ([link] ++ allLinks).
  rewrite omap_app, !length_app. simpl.
  destruct (normalizeLink toCrawl link); simpl; lia.
Qed.

Lemma In_normalizedLinks toCrawl allLinks toVet :
  In toVet (normalizedLinks toCrawl allLinks)
  ↔ ∃ link, In link allLinks ∧ normalizeLink toCrawl link = Some toVet.
Proof.
  unfold normalizedLinks. rewrite <- list_elem_of_In, list_elem_of_omap.
  by setoid_rewrite list_elem_of_In.
Qed.
End BatchFacts.

(** X12: the batch a worker sends has at least as many websites as the page
    has links and at most twice as many, and each of them is the zero
    website or has the crawled page as its referrer and a scheme. *)
Theorem crawled_batch_shape `{UrlPkg} (toCrawl : website)
  (allLinks : list string) :
  (length allLinks ≤ length (crawlLinks toCrawl allLinks) ≤ 2 * length allLinks)%nat
  ∧ ∀ toVet, In toVet (crawlLinks toCrawl allLinks) →
      toVet = zeroWebsite
      ∨ (referrer toVet = URL toCrawl ∧ Scheme (URL toVet) ≠ "").
Proof.
  unfold crawlLinks. rewrite fold_crawlLink. split.
  - pose proof (length_normalizedLinks toCrawl allLinks).
    rewrite length_app, length_replicate. lia.
  - intros toVet [Hin|Hin]%in_app_iff.
    + left. apply list_elem_of_In, elem_of_replicate in Hin. by destruct Hin.
    + right. apply In_normalizedLinks in Hin as (link & _ & Hlink).
      by eapply normalizeLink_shape.
Qed.

Lemma crawled_batch_shape_witness :
  fooLink = zeroWebsite
  ∨ (referrer fooLink = URL examplePage ∧ Scheme (URL fooLink) ≠ "").
Proof.
  apply (proj2 (crawled_batch_shape examplePage ["/foo"; ":bad"]) fooLink).
  right. right. by left.
Defined.

(** X13: what the loop of a worker appends for one link.  A link that
    parses with a host name and a scheme is appended as it is; a link that
    parses without a scheme gets [http], whatever the scheme of the crawled
    page; a link that parses without a host name gets the host name of the
    crawled page as its host; a link that does not parse appends nothing. *)
Theorem crawlLink_cases `{UrlPkg} (toCrawl : website)
  (urlsToVet : list website) (link : string) :
  (url_Parse link = None → crawlLink toCrawl urlsToVet link = urlsToVet)
  ∧ ∀ parsedURL, url_Parse link = Some parsedURL →
      ∃ toVet,
        crawlLink toCrawl urlsToVet link = urlsToVet ++ [toVet]
        ∧ referrer toVet = URL toCrawl
        ∧ Path (URL toVet) = Path parsedURL
        ∧ RawQuery (URL toVet) = RawQuery parsedURL
        ∧ (URL_Hostname parsedURL ≠ "" → Scheme parsedURL ≠ "" →
           URL toVet = parsedURL)
        ∧ (Scheme parsedURL = "" → Scheme (URL toVet) = "http")
        ∧ (URL_Hostname parsedURL = "" →
           Host (URL toVet) = URL_Hostname (URL toCrawl)).
Proof.
  unfold crawlLink. split; [by intros ->|].
  intros parsedURL ->. eexists. split; [done|]. simpl.
  destruct (String.eqb_spec (URL_Hostname parsedURL) "") as [Hh|Hh];
    match goal with |- context [(Scheme ?h =? "")%string] =>
      destruct (String.eqb_spec (Scheme h) "") as [Hs|Hs] end;
    simpl in *; repeat split; try done; intros; congruence.
Qed.

Lemma crawlLink_cases_witness :
  ∃ toVet,
    crawlLink privatePage [] "/foo" = [] ++ [toVet]
    ∧ Scheme (URL toVet) = "http"
    ∧ Host (URL toVet) = "example.com"
    ∧ crawlLink privatePage [] ":bad" = [].
Proof.
  destruct (crawlLink_cases privatePage [] "/foo") as [_ Hparsed].
  destruct (crawlLink_cases privatePage [] ":bad") as [Hbad _].
  destruct (Hparsed _ eq_refl) as (toVet & Hlink & _ & _ & _ & _ & Hs & Hh).
  exists toVet. split; [done|]. split; [by apply Hs|].
  split; [by apply Hh | by apply Hbad].
Defined.

(** X17: a worker makes exactly one request, for the string form of its
    page.  It sends a batch and announces the page as finished exactly when
    the answer has a status from 200 to 399, and then the page it announces
    is the one it was given; otherwise it sends nothing. *)
Theorem crawl_outcome `{UrlPkg} (client : Client) (toCrawl : website)
  (net : Network) :
  ∃ outcome,
    crawl client toCrawl net = (outcome, net ++ [URL_String (URL toCrawl)])
    ∧ ((∃ urlsToVet finished, outcome = Crawled urlsToVet finished)
       ↔ ∃ status body,
           client net (URL_String (URL toCrawl)) = Response status body
           ∧ 200 ≤ status ≤ 399)
    ∧ ∀ urlsToVet finished,
        outcome = Crawled urlsToVet finished →
        finished = toCrawl
        ∧ ∃ status body,
            client net (URL_String (URL toCrawl)) = Response status body
            ∧ urlsToVet = crawlLinks toCrawl (collectlinks_All body).
Proof.
  unfold crawl, client_Get.
  destruct (client net (URL_String (URL toCrawl))) as [e|status body] eqn:Hreply.
  - eexists. split; [done|]. split; [|done].
    split; [by intros (? & ? & ?) | by intros (? & ? & ? & ?)].
  - destruct (Z.ltb_spec 399 status), (Z.ltb_spec status 200); simpl;
      (eexists; split; [done|]; split;
       [split; [intros (? & ? & ?) | intros (? & ? & ? & ?)]; simplify_eq;
        try lia; eauto 10
       |intros ? ? ?; simplify_eq; eauto 10]).
Qed.

Lemma crawl_outcome_witness :
  ∃ urlsToVet,
    crawl (serving "" twoLinksPage) examplePage []
    = (Crawled urlsToVet examplePage, ["http://example.com/bar"])
    ∧ urlsToVet = crawlLinks examplePage ["/foo"; ":bad"].
Proof.
  destruct (crawl_outcome (serving "" twoLinksPage) examplePage [])
    as (outcome & Hcrawl & Hiff & Hdone).
  destruct (proj2 Hiff) as (urlsToVet & finished & ->).
  { exists 200, (ReadBody twoLinksPage). split; [reflexivity | lia]. }
  destruct (Hdone urlsToVet finished eq_refl) as (-> & status & body & Hreply & ->).
  eexists. split; [exact Hcrawl|]. vm_compute in Hreply. by simplify_eq.
Defined.

Section Padding.
Context `{StringsPkg} `{UrlPkg}.

Lemma vetBatch_replicate st toVet n rest :
  is_Some (visited st) →
  vetBatch st (replicate (S n) toVet ++ rest) = vetBatch st (toVet :: rest).
Proof.
  intros Hm. induction n as [|n IH]; [done|].
  rewrite <- IH.
  destruct (vet_marks_visited st toVet Hm) as (st1 & Hvet & Hmark).
  change (replicate (S (S n)) toVet ++ rest)
    with (toVet :: toVet :: (replicate n toVet ++ rest)).
  change (replicate (S n) toVet ++ rest)
    with (toVet :: (replicate n toVet ++ rest)).
  cbn [vetBatch]. rewrite Hvet. simpl. by rewrite (vet_visited st1 toVet Hmark).
Qed.
End Padding.

(** X14: what the padding of a worker's batch costs the manager.  For a
    page with at least one link, the manager handles the batch as it would
    handle a single zero website followed by the normalized links; and once
    the empty string is in [visited], as it would handle the normalized
    links alone. *)
Theorem vetting_a_crawled_batch `{StringsPkg} `{UrlPkg} (st : ManagerState)
  (toCrawl : website) (allLinks : list string) :
  is_Some (visited st) →
  (allLinks ≠ [] →
   vetBatch st (crawlLinks toCrawl allLinks)
   = vetBatch st (zeroWebsite :: normalizedLinks toCrawl allLinks))
  ∧ (hasKey (visited st) (URL_String (URL zeroWebsite)) = true →
     vetBatch st (crawlLinks toCrawl allLinks)
     = vetBatch st (normalizedLinks toCrawl allLinks)).
Proof.
  intros Hm. unfold crawlLinks. rewrite fold_crawlLink. split.
  - intros Hne. destruct allLinks as [|link allLinks]; [done|].
    cbn [length]. by apply vetBatch_replicate.
  - intros Hv. destruct allLinks as [|link allLinks]; [done|].
    cbn [length]. rewrite vetBatch_replicate by done.
    cbn [vetBatch]. by rewrite (vet_visited st zeroWebsite Hv).
Qed.

Lemma vetting_a_crawled_batch_witness :
  let st := managerStart (always (Response 404 (ReadBody ""))) [] in
  vetBatch st (crawlLinks examplePage ["/foo"; ":bad"])
  = vetBatch st [zeroWebsite; fooLink].
Proof.
  intros st.
  assert (Hm : is_Some (visited st)) by (by eexists).
  assert (Hne : ["/foo"; ":bad"] ≠ []) by discriminate.
  exact (proj1 (vetting_a_crawled_batch st examplePage ["/foo"; ":bad"] Hm) Hne).
Defined.

(** ** The manager that fetches the rules itself *)

(** X15: this manager puts a website without a host name in [visited] and
    does nothing else with it: no rules are fetched, no request is made,
    nothing is printed and no worker is started. *)
Theorem direct_manager_drops_empty_hostname `{StringsPkg} `{UrlPkg}
  (client : Client) (st : Direct.ManagerState) (toVet : website)
  (m : gmap string bool) :
  Direct.visited st = Some m →
  m !! URL_String (URL toVet) = None →
  URL_Hostname (URL toVet) = "" →
  Direct.vet client st toVet
  = Some {| Direct.visited := Some (<[URL_String (URL toVet) := true]> m);
            Direct.visitingRules := Direct.visitingRules st;
            Direct.network := Direct.network st;
            Direct.trace := Direct.trace st |}.
Proof.
  intros Hm Hfresh Hhost. unfold Direct.vet, hasKey, store.
  by rewrite Hm, Hfresh, Hhost.
Qed.

Lemma direct_manager_drops_empty_hostname_witness :
  Direct.vet refusingNoHost (Direct.managerStart []) zeroWebsite
  = Some {| Direct.visited := Some (<["" := true]> ∅);
            Direct.visitingRules := ∅;
            Direct.network := [];
            Direct.trace := [] |}.
Proof.
  exact (direct_manager_drops_empty_hostname refusingNoHost
           (Direct.managerStart []) zeroWebsite ∅ eq_refl (lookup_empty _) eq_refl).
Defined.

Section InStep.
Context `{StringsPkg} `{UrlPkg}.

Lemma negb_Test rules path :
  negb (Test rules path)
  = negb (hasKey (AllowedPaths rules) path) && hasKey (DisallowedPaths rules) path.
Proof.
  unfold Test.
  by destruct (hasKey (AllowedPaths rules) path),
              (hasKey (DisallowedPaths rules) path).
Qed.

Lemma vet_inStep st c dst toVet st' :
  inStep st c dst →
  URL_Hostname (URL toVet) ≠ "" →
  vet st toVet = Some st' →
  ∃ dst', Direct.vet c dst toVet = Some dst' ∧ inStep st' c dst'.
Proof.
  intros (Hv & Hc & Hr & Hn & Ht) Hhost Hvet.
  unfold vet in Hvet. unfold Direct.vet. rewrite <- Hv, <- Hr, <- Hn, <- Ht.
  destruct (hasKey (visited st) (URL_String (URL toVet))).
  { simplify_eq. exists dst. split; [|done]. by destruct dst; simpl in *; subst. }
  destruct (store (visited st) (URL_String (URL toVet))) as [v|]; [|done].
  simpl in *.
  destruct (String.eqb_spec (URL_Hostname (URL toVet)) ""); [done|].
  destruct (rules (rulesIndex st) !! URL_Hostname (URL toVet)) as [cached|] eqn:Hk.
  - rewrite (Get_cached _ _ _ cached Hk) in Hvet. simpl in *. rewrite Hk.
    rewrite <- negb_Test.
    destruct (negb (Test cached (Path (URL toVet)))); simplify_eq;
      (eexists; split; [done|]); repeat split; simpl; try done;
      by rewrite !flat_map_app, ?app_nil_r.
  - destruct (Get_uncached _ _ (network st) Hk) as (r & err & Hfetch & _ & Hget).
    rewrite Hget in Hvet. rewrite Hc in Hfetch.
    change (FetchCrawlRules c (URL_Hostname (URL toVet)) (network st))
      with (fetchCrawlRules c (URL_Hostname (URL toVet)) (network st)).
    rewrite Hfetch. simpl in *.
    destruct err as [e|]; simpl in *; simplify_eq.
    { eexists. split; [done|]. repeat split; simpl; try done.
      by rewrite !flat_map_app, ?app_nil_r. }
    rewrite lookup_insert_eq, <- negb_Test.
    destruct (negb (Test r (Path (URL toVet)))); simplify_eq;
      (eexists; split; [done|]); repeat split; simpl; try done;
      by rewrite !flat_map_app, ?app_nil_r.
Qed.

Lemma vetBatch_inStep c batch : ∀ st dst st',
  inStep st c dst →
  (∀ toVet, In toVet batch → URL_Hostname (URL toVet) ≠ "") →
  vetBatch st batch = Some st' →
  ∃ dst', Direct.vetBatch c dst batch = Some dst' ∧ inStep st' c dst'.
Proof.
  induction batch as [|toVet batch IH]; intros st dst st' Hstep Hhosts Hrun.
  { simpl in Hrun. simplify_eq. by exists dst. }
  cbn [vetBatch] in Hrun.
  destruct (vet st toVet) as [st1|] eqn:Hvet; [|done]. simpl in Hrun.
  destruct (vet_inStep st c dst toVet st1 Hstep) as (dst1 & Hd & Hstep1);
    [apply Hhosts; by left | done |].
  cbn [Direct.vetBatch]. rewrite Hd. simpl.
  apply (IH st1 dst1 st' Hstep1); [|done]. intros w Hw. apply Hhosts. by right.
Qed.

Lemma vetBatches_inStep c batches : ∀ st dst st',
  inStep st c dst →
  (∀ batch toVet, In batch batches → In toVet batch →
     URL_Hostname (URL toVet) ≠ "") →
  vetBatches st batches = Some st' →
  ∃ dst', Direct.vetBatches c dst batches = Some dst' ∧ inStep st' c dst'.
Proof.
  induction batches as [|batch batches IH]; intros st dst st' Hstep Hhosts Hrun.
  { simpl in Hrun. simplify_eq. by exists dst. }
  cbn [vetBatches] in Hrun.
  destruct (vetBatch st batch) as [st1|] eqn:Hbatch; [|done]. simpl in Hrun.
  destruct (vetBatch_inStep c batch st dst st1 Hstep) as (dst1 & Hd & Hstep1);
    [intros w Hw; apply (Hhosts batch w); [by left | done] | done |].
  cbn [Direct.vetBatches]. rewrite Hd. simpl.
  apply (IH st1 dst1 st' Hstep1); [|done].
  intros b w Hb Hw. apply (Hhosts b w); [by right | done].
Qed.
End InStep.

(** X16: when the seed and every website received have a host name, the
    manager with the rules index and the manager that fetches the rules
    itself, run with the same client on the same batches, end with the same
    [visited], the same rules per host and the same requests made, and the
    second prints the errors and starts the workers of the first, in the
    same order. *)
Theorem managers_agree `{StringsPkg} `{UrlPkg} (client : Client)
  (initialURL : url_URL) (received : list (list website)) (net : Network) :
  URL_Hostname initialURL ≠ "" →
  (∀ batch toVet, In batch received → In toVet batch →
     URL_Hostname (URL toVet) ≠ "") →
  ∃ st dst,
    manager client initialURL received net = Some st
    ∧ Direct.manager client initialURL received net = Some dst
    ∧ visited st = Direct.visited dst
    ∧ rules (rulesIndex st) = Direct.visitingRules dst
    ∧ network st = Direct.network dst
    ∧ flat_map directEvent (trace st) = Direct.trace dst.
Proof.
  intros Hseed Hhosts. unfold manager, Direct.manager.
  destruct (vetBatches_admitted
              ([{| referrer := zeroURL; URL := initialURL |}] :: received)
              (managerStart client net) (managerStart_admitted client net))
    as (st & Hrun & _).
  destruct (vetBatches_inStep client
              ([{| referrer := zeroURL; URL := initialURL |}] :: received)
              (managerStart client net)
              (Direct.managerStart net) st) as (dst & Hd & Hstep); [| |done|].
  - by repeat split.
  - intros batch toVet [<-|Hb] Hw; [|by eapply Hhosts].
    by destruct Hw as [<-|[]].
  - destruct Hstep as (Hv & _ & Hr & Hn & Ht). by exists st, dst.
Qed.

Lemma managers_agree_witness :
  ∃ st dst,
    manager (serving mixedBody "") (URL examplePage) [[privatePage; fooLink]] []
    = Some st
    ∧ Direct.manager (serving mixedBody "") (URL examplePage)
        [[privatePage; fooLink]] [] = Some dst
    ∧ visited st = Direct.visited dst
    ∧ rules (rulesIndex st) = Direct.visitingRules dst
    ∧ network st = Direct.network dst
    ∧ flat_map directEvent (trace st) = Direct.trace dst.
Proof.
  apply (managers_agree (serving mixedBody "") (URL examplePage)
           [[privatePage; fooLink]] []).
  - discriminate.
  - intros batch toVet [<-|[]] [<-|[<-|[]]]; discriminate.
Defined.

(** ** One website, by the answer to the robots.txt request *)

(** X18: for a website not yet visited whose host has no rules in the
    index, when the robots.txt request is answered with a status below 200
    or above 399, the manager stores the rules of [newCrawlRules] for the
    host and starts a worker for the website with a delay of one second,
    whatever its path. *)
Theorem vet_without_robots_starts_worker `{StringsPkg} `{UrlPkg}
  (st : ManagerState) (toVet : website) (m : gmap string bool)
  (status : Z) (body : Body) :
  let hostname := URL_Hostname (URL toVet) in
  let url := "http://" +:+ hostname +:+ "/robots.txt" in
  visited st = Some m →
  m !! URL_String (URL toVet) = None →
  rules (rulesIndex st) !! hostname = None →
  client (rulesIndex st) (network st) url = Response status body →
  status < 200 ∨ 399 < status →
  vet st toVet
  = Some {| visited := Some (<[URL_String (URL toVet) := true]> m);
            rulesIndex :=
              {| client := client (rulesIndex st);
                 rules := <[hostname := newCrawlRules]> (rules (rulesIndex st)) |};
            network := network st ++ [url];
            trace := (trace st ++ [CallGet hostname])
                     ++ [StartWorker toVet (1 * Second)] |}.
Proof.
  intros hostname url Hm Hfresh Hnone Hreply Hstatus.
  unfold vet, hasKey, store. rewrite Hm, Hfresh. simpl. fold hostname.
  unfold Get, fetchCrawlRules, client_Get, robotsURL. fold url.
  rewrite Hnone, Hreply.
  assert ((399 <? status) || (status <? 200) = true) as ->.
  { destruct (Z.ltb_spec 399 status), (Z.ltb_spec status 200); simpl; lia. }
  simpl. unfold rulesAt. simpl. rewrite lookup_insert_eq. simpl.
  unfold Test, hasKey. simpl. by rewrite lookup_empty.
Qed.

Lemma vet_without_robots_starts_worker_witness :
  trace <$> vet (managerStart (always (Response 404 (ReadBody ""))) []) privatePage
  = Some [CallGet "example.com"; StartWorker privatePage (1 * Second)].
Proof.
  rewrite (vet_without_robots_starts_worker
             (managerStart (always (Response 404 (ReadBody ""))) []) privatePage
             ∅ 404 (ReadBody "") eq_refl (lookup_empty _) (lookup_empty _) eq_refl);
    [reflexivity | lia].
Defined.

(** X19: for a website not yet visited whose host has no rules in the
    index, when the robots.txt request fails, the manager prints the error
    and starts no worker; the website is in [visited] all the same, so it
    is not looked at again, while the index still has no rules for the
    host. *)
Theorem vet_robots_failure_drops_url `{StringsPkg} `{UrlPkg}
  (st : ManagerState) (toVet : website) (m : gmap string bool) (err : error) :
  let hostname := URL_Hostname (URL toVet) in
  let url := "http://" +:+ hostname +:+ "/robots.txt" in
  visited st = Some m →
  m !! URL_String (URL toVet) = None →
  rules (rulesIndex st) !! hostname = None →
  client (rulesIndex st) (network st) url = TransportError err →
  ∃ st',
    vet st toVet = Some st'
    ∧ st' = {| visited := Some (<[URL_String (URL toVet) := true]> m);
               rulesIndex := rulesIndex st;
               network := network st ++ [url];
               trace := (trace st ++ [CallGet hostname]) ++ [Println err] |}
    ∧ vet st' toVet = Some st'
    ∧ rules (rulesIndex st') !! hostname = None.
Proof.
  intros hostname url Hm Hfresh Hnone Hreply.
  eexists. split; [|split; [reflexivity|split]].
  - unfold vet, hasKey, store. rewrite Hm, Hfresh. simpl. fold hostname.
    unfold Get, fetchCrawlRules, client_Get, robotsURL. fold url.
    by rewrite Hnone, Hreply.
  - apply vet_visited. simpl. by rewrite lookup_insert_eq.
  - done.
Qed.

Lemma vet_robots_failure_drops_url_witness :
  ∃ st',
    vet (managerStart (flaky mixedBody) []) privatePage = Some st'
    ∧ trace st' = [CallGet "example.com"; Println "timeout"]
    ∧ vet st' privatePage = Some st'.
Proof.
  destruct (vet_robots_failure_drops_url (managerStart (flaky mixedBody) [])
              privatePage ∅ "timeout" eq_refl (lookup_empty _) (lookup_empty _)
              eq_refl) as (st' & Hvet & -> & Hagain & _).
  eexists. split; [exact Hvet|]. split; [reflexivity | exact Hagain].
Defined.

Section DirectRun.
Context `{StringsPkg} `{UrlPkg}.

(** What one website adds to the trace and to the requests of the manager
    that fetches the rules itself. *)
Lemma Direct_vet_effect client dst toVet :
  is_Some (Direct.visited dst) →
  ∃ dst' events requested,
    Direct.vet client dst toVet = Some dst'
    ∧ is_Some (Direct.visited dst')
    ∧ Direct.trace dst' = Direct.trace dst ++ events
    ∧ Direct.network dst' = Direct.network dst ++ requested
    ∧ (URL_Hostname (URL toVet) = "" → events = [] ∧ requested = [])
    ∧ (∀ toCrawl, In (Direct.StartCrawl toCrawl) events → toCrawl = toVet)
    ∧ (∀ url, In url requested → url = robotsURL (URL_Hostname (URL toVet))).
Proof.
  intros [m Hm]. unfold Direct.vet. rewrite Hm.
  destruct (hasKey (Some m) (URL_String (URL toVet))).
  { exists dst, [], []. rewrite !app_nil_r, Hm. by repeat split; eauto. }
  simpl.
  destruct (String.eqb_spec (URL_Hostname (URL toVet)) "") as [Hh|Hh].
  { eexists _, [], []. rewrite !app_nil_r. split; [done|]. simpl.
    by repeat split; eauto. }
  destruct (Direct.visitingRules dst !! URL_Hostname (URL toVet)) as [r|] eqn:Hk;
    simpl.
  - rewrite Hk.
    destruct (negb _ && _);
      [eexists _, [], [] | eexists _, [_], []];
      rewrite ?app_nil_r; (split; [done|]); simpl;
      repeat split; eauto; try done.
    by intros ? [[= <-]|[]].
  - change (FetchCrawlRules client (URL_Hostname (URL toVet)) (Direct.network dst))
      with (fetchCrawlRules client (URL_Hostname (URL toVet)) (Direct.network dst)).
    destruct (fetchCrawlRules_total client (URL_Hostname (URL toVet))
                (Direct.network dst)) as (r & err & -> & _).
    simpl. destruct err as [e|]; simpl.
    { eexists _, [_], [_]. split; [done|]. simpl. repeat split; eauto; try done.
      - by intros ? [?|[]].
      - by intros ? [<-|[]]. }
    rewrite lookup_insert_eq.
    destruct (negb _ && _);
      [eexists _, [], [_] | eexists _, [_], [_]];
      rewrite ?app_nil_r; (split; [done|]); simpl;
      repeat split; eauto; try done;
      try (by intros ? [<-|[]]); by intros ? [[= <-]|[]].
Qed.

Lemma Direct_vetBatch_hosts client batch : ∀ dst,
  is_Some (Direct.visited dst) →
  ∃ dst' events requested,
    Direct.vetBatch client dst batch = Some dst'
    ∧ is_Some (Direct.visited dst')
    ∧ Direct.trace dst' = Direct.trace dst ++ events
    ∧ Direct.network dst' = Direct.network dst ++ requested
    ∧ (∀ toCrawl, In (Direct.StartCrawl toCrawl) events →
         In toCrawl batch ∧ URL_Hostname (URL toCrawl) ≠ "")
    ∧ (∀ url, In url requested →
         ∃ toVet, In toVet batch ∧ URL_Hostname (URL toVet) ≠ ""
                  ∧ url = robotsURL (URL_Hostname (URL toVet))).
Proof.
  induction batch as [|toVet batch IH]; intros dst Hm.
  { exists dst, [], []. rewrite !app_nil_r. by repeat split. }
  destruct (Direct_vet_effect client dst toVet Hm)
    as (dst1 & ev1 & rq1 & Hvet & Hm1 & Ht1 & Hn1 & Hempty & Hstart & Hreq).
  destruct (IH dst1 Hm1) as (dst' & ev & rq & Hrun & Hm' & Ht & Hn & Hs & Hr).
  exists dst', (ev1 ++ ev), (rq1 ++ rq).
  cbn [Direct.vetBatch]. rewrite Hvet. simpl. split; [done|]. split; [done|].
  rewrite Ht, Ht1, Hn, Hn1, !app_assoc. split; [done|]. split; [done|]. split.
  - intros w [Hin|Hin]%in_app_iff.
    + rewrite (Hstart w Hin). split; [by left|]. intros Hh.
      destruct (Hempty Hh) as [-> _]. done.
    + destruct (Hs w Hin). split; [by right | done].
  - intros url [Hin|Hin]%in_app_iff.
    + exists toVet. split; [by left|]. split; [|by apply Hreq].
      intros Hh. destruct (Hempty Hh) as [_ ->]. done.
    + destruct (Hr url Hin) as (w & Hw & ? & ?). exists w. split; [by right|done].
Qed.

Lemma Direct_vetBatches_hosts client batches : ∀ dst,
  is_Some (Direct.visited dst) →
  ∃ dst' events requested,
    Direct.vetBatches client dst batches = Some dst'
    ∧ Direct.trace dst' = Direct.trace dst ++ events
    ∧ Direct.network dst' = Direct.network dst ++ requested
    ∧ (∀ toCrawl, In (Direct.StartCrawl toCrawl) events →
         URL_Hostname (URL toCrawl) ≠ "")
    ∧ (∀ url, In url requested →
         ∃ toVet, URL_Hostname (URL toVet) ≠ ""
                  ∧ url = robotsURL (URL_Hostname (URL toVet))).
Proof.
  induction batches as [|batch batches IH]; intros dst Hm.
  { exists dst, [], []. rewrite !app_nil_r. by repeat split. }
  destruct (Direct_vetBatch_hosts client batch dst Hm)
    as (dst1 & ev1 & rq1 & Hrun1 & Hm1 & Ht1 & Hn1 & Hs1 & Hr1).
  destruct (IH dst1 Hm1) as (dst' & ev & rq & Hrun & Ht & Hn & Hs & Hr).
  exists dst', (ev1 ++ ev), (rq1 ++ rq).
  cbn [Direct.vetBatches]. rewrite Hrun1. simpl. split; [done|].
  rewrite Ht, Ht1, Hn, Hn1, !app_assoc. split; [done|]. split; [done|]. split.
  - intros w [Hin|Hin]%in_app_iff; [by apply Hs1 | by apply Hs].
  - intros url [Hin|Hin]%in_app_iff; [|by apply Hr].
    destruct (Hr1 url Hin) as (w & _ & ? & ?). by exists w.
Qed.
End DirectRun.

(** X20: the manager that fetches the rules itself returns for every run,
    and in no run does it start a worker for a website without a host name
    or request the robots.txt of an empty host name: every request it makes
    is for [http://<host>/robots.txt] with the host name, not empty, of some
    website. *)
Theorem direct_manager_skips_empty_hostnames `{StringsPkg} `{UrlPkg}
  (client : Client) (initialURL : url_URL) (received : list (list website))
  (net : Network) :
  ∃ dst requested,
    Direct.manager client initialURL received net = Some dst
    ∧ Direct.network dst = net ++ requested
    ∧ (∀ toCrawl, In (Direct.StartCrawl toCrawl) (Direct.trace dst) →
         URL_Hostname (URL toCrawl) ≠ "")
    ∧ (∀ url, In url requested →
         ∃ toVet, URL_Hostname (URL toVet) ≠ ""
                  ∧ url = "http://" +:+ URL_Hostname (URL toVet) +:+ "/robots.txt").
Proof.
  unfold Direct.manager.
  destruct (Direct_vetBatches_hosts client
              ([{| referrer := zeroURL; URL := initialURL |}] :: received)
              (Direct.managerStart net))
    as (dst & ev & rq & Hrun & Ht & Hn & Hs & Hr); [by eexists|].
  exists dst, rq. split; [done|]. split; [done|]. split; [|done].
  intros w Hin. apply Hs. by rewrite Ht in Hin.
Qed.

Lemma direct_manager_skips_empty_hostnames_witness :
  URL_Hostname (URL examplePage) ≠ "".
Proof.
  destruct (direct_manager_skips_empty_hostnames
              (always (Response 404 (ReadBody ""))) (URL examplePage)
              [[zeroWebsite; zeroWebsite]] [])
    as (dst & requested & Hrun & _ & Hstarted & _).
  assert (Ht : Direct.trace <$> Direct.manager
                 (always (Response 404 (ReadBody ""))) (URL examplePage)
                 [[zeroWebsite; zeroWebsite]] []
               = Some [Direct.StartCrawl examplePage]) by reflexivity.
  rewrite Hrun in Ht. simpl in Ht. injection Ht as Ht.
  apply Hstarted. rewrite Ht. by left.
Defined.
